(** * InsightFace-REST: the face-analysis orchestration layer

    A shallow embedding of [src/api_trt/modules/face_model.py]: the detector
    wrapper ([Detector]), the face selection heuristic ([sort_boxes]), the
    coordinate reprojection ([reproject_points]), the batched attribute
    extraction ([process_faces]) and the pipeline entry point ([get]).

    Python values are modelled as the code uses them:
    - numpy scalars are an abstract type [F] with the operations the code
      applies to them (class [Scalar]); the theorems hold for every such type,
      IEEE floats included, and are run on exact rationals ([Q]);
    - numpy arrays are lists (1-D), matrices with an explicit column count
      (2-D, so that an array of shape (0, 5) differs from one of shape (0, 6)),
      and lists of per-face blocks (3-D);
    - [np.argsort] is any function that lists the indices of an array in
      an order that sorts its keys (class [ArgsortOrder]), since numpy's
      default sort fixes no order among equal keys; the examples run the
      insertion sort numpy applies to short arrays;
    - exceptions are the [Raise] case of [result]; calls to collaborators
      (models, image preparation, attribute reads) are recorded in a trace;
    - timing and logging calls are left out, except for the division the
      debug messages of [process_faces] perform. *)

From Stdlib Require Import ZArith QArith Qround Lia.
From stdpp Require Import base list strings sorting.

Local Open Scope Z_scope.

(** ** Python exceptions and results *)

Inductive exn : Set :=
  | IndexError | AttributeError | TypeError | ValueError | KeyError
  | ZeroDivisionError | InvalidConfigError | BackendError.

Inductive result (A : Type) : Type :=
  | Ok (a : A)
  | Raise (e : exn).
Arguments Ok {A} a.
Arguments Raise {A} e.

Global Instance result_ret : MRet result := @Ok.
Global Instance result_bind : MBind result := fun A B f r =>
  match r with
  | Ok a => f a
  | Raise e => Raise e
  end.
Global Instance result_fmap : FMap result := fun A B f r =>
  match r with
  | Ok a => Ok (f a)
  | Raise e => Raise e
  end.

(** [l[i]] with an integer index in range [0 <= i]. *)
Definition index {A} (l : list A) (i : nat) : result A :=
  match l !! i with
  | Some a => Ok a
  | None => Raise IndexError
  end.

(** ** Scalars *)

(** The operations of a numpy scalar type that the module uses.
    [flt] is the comparison numpy's sorts order keys with, [feqb] is [==],
    [py_int] is Python's [int(x)] (which raises on NaN and infinities). *)
Class Scalar (F : Type) : Type := {
  fadd : F -> F -> F;
  fsub : F -> F -> F;
  fmul : F -> F -> F;
  fdiv : F -> F -> F;
  fpow : F -> F -> F;
  of_Z : Z -> F;
  flt : F -> F -> bool;
  feqb : F -> F -> bool;
  py_int : F -> result Z
}.

(** The keys of a sort are totally pre-ordered by [flt] (numpy orders NaN
    after every number, so this holds of floats too). *)
Class ScalarOrder (F : Type) `{Scalar F} : Prop := {
  flt_irrefl : forall x, flt x x = false;
  flt_trans : forall x y z, flt x y = true -> flt y z = true -> flt x z = true;
  flt_cotrans : forall x y z, flt x z = true -> flt x y = true \/ flt y z = true
}.

Definition fle `{Scalar F} (x y : F) : bool := negb (flt y x).
Definition fone `{Scalar F} : F := of_Z 1.

(** ** [np.argsort]

    [np.argsort(values)] as [sort_boxes] calls it, without [kind]: numpy's
    default sort. It returns the indices [0 .. n-1] of the array in an
    order that sorts the keys; the default sort is not stable, so the order
    among indices whose keys compare equal is left to numpy (it depends on
    the length of the array). The module is modelled against that
    interface: [argsort] is any function with the two properties of
    [ArgsortOrder]. *)
Class Argsort (F : Type) : Type := argsort : list F -> list nat.

Class ArgsortOrder (F : Type) `{Scalar F} `{!Argsort F} : Prop := {
  argsort_perm : forall v : list F, argsort v ≡ₚ seq 0 (length v);
  argsort_sorted : forall v : list F,
    StronglySorted
      (fun i j => forall x y, v !! i = Some x -> v !! j = Some y -> fle x y = true)
      (argsort v)
}.

(** ** numpy arrays *)

Section Arrays.
Context {F : Type} `{Scalar F}.

(** A 2-D array: [rows] has [shape[0]] entries, each of [ncols] scalars. *)
Record matrix : Type := Matrix { ncols : nat; rows : list (list F) }.

(** A per-face block of a 3-D array (the K x 2 landmark points of one face). *)
Definition Landmark : Type := list (list F).

(** [mask_probs] as [sort_boxes] receives it: a 1-D array (what
    [Detector.detect] slices out of the detector output) or a 2-D one. *)
Inductive ndarray : Type :=
  | Vec (v : list F)
  | Mat (m : matrix).

(** [a.shape[0]] *)
Definition nrows (m : matrix) : nat := length (rows m).

(** [r[j]] for a row of a 2-D array and a column [j] the array has (the
    default is never read: [col] checks [j] first). *)
Definition at_col (j : nat) (r : list F) : F := default (of_Z 0) (r !! j).

(** [m[:, j]]: numpy checks [j] against the column count even when the
    array has no row. *)
Definition col (j : nat) (m : matrix) : result (list F) :=
  if bool_decide (j < ncols m)%nat
  then Ok (at_col j <$> rows m)
  else Raise IndexError.

(** [m[:, a:b]]: a slice never fails, it is clipped to the columns there are. *)
Definition col_slice (a b : nat) (m : matrix) : matrix :=
  {| ncols := (b `min` ncols m) - a;
     rows := (fun r => drop a (take b r)) <$> rows m |}.

(** [a[bindex]] for a list of indices along the first axis. *)
Definition gather {A} (a : list A) (bindex : list nat) : result (list A) :=
  mapM (index a) bindex.

(** [m[bindex, :]] on a 2-D array. *)
Definition gather_rows (m : matrix) (bindex : list nat) : result matrix :=
  Matrix (ncols m) <$> gather (rows m) bindex.

(** [a[bindex, :]] on [mask_probs]: two indices into a 1-D array are
    "too many indices for array", whatever the indices. *)
Definition gather_rows_nd (a : ndarray) (bindex : list nat) : result ndarray :=
  match a with
  | Vec _ => Raise IndexError
  | Mat m => Mat <$> gather_rows m bindex
  end.

(** [a[i]] on [mask_probs], as [get] reads it: a scalar of a 1-D array,
    a row of a 2-D one. *)
Inductive item : Type :=
  | Num (x : F)
  | Row (r : list F).

Definition index_nd (a : ndarray) (i : nat) : result item :=
  match a with
  | Vec v => Num <$> index v i
  | Mat m => Row <$> index (rows m) i
  end.

(** [len(a)] of [mask_probs]. *)
Definition len_nd (a : ndarray) : nat :=
  match a with
  | Vec v => length v
  | Mat m => nrows m
  end.

(** *** The sort numpy runs on short arrays

    numpy's default sort partitions an index array only when it has more
    than 17 entries; a shorter array is sorted by insertion: each index is
    moved left past the indices whose key is strictly greater
    ([LT(vp, v[*pk])]), which keeps equal keys in index order.
    [insertion_argsort] is that insertion sort. It is an [argsort] in the
    sense of [ArgsortOrder] at every length, and it is [np.argsort] itself
    on the arrays of the examples below, which have three entries; from 18
    entries on numpy orders equal keys differently.
    [insert_right] is the inner loop on the sorted prefix read from its
    right end, so [racc] holds the prefix in reverse. *)
Fixpoint insert_right (x : nat * F) (racc : list (nat * F)) : list (nat * F) :=
  match racc with
  | [] => [x]
  | y :: rest => if flt x.2 y.2 then y :: insert_right x rest else x :: racc
  end.

Definition sorted_rev (v : list F) : list (nat * F) :=
  foldl (fun racc x => insert_right x racc) [] (imap pair v).

Definition insertion_argsort (v : list F) : list nat := (reverse (sorted_rev v)).*1.

(** The order of [sorted_rev v] on (index, key) pairs: keys descend, and
    of two equal keys the later index comes first. *)
Definition ranks_before (x y : nat * F) : Prop :=
  fle y.2 x.2 = true /\ (fle x.2 y.2 = true -> (y.1 < x.1)%nat).

(** The area [(x2 - x1) * (y2 - y1)] of one box [x1, y1, x2, y2]. *)
Definition area_of (box : list F) : F :=
  fmul (fsub (at_col 2 box) (at_col 0 box)) (fsub (at_col 3 box) (at_col 1 box)).

End Arrays.
Arguments matrix F : clear implicits.
Arguments Landmark F : clear implicits.
Arguments ndarray F : clear implicits.
Arguments item F : clear implicits.

(** ** [FaceAnalysis.sort_boxes] and [FaceAnalysis.reproject_points] *)

Section Selection.
Context {F : Type} `{Scalar F} `{!Argsort F}.

(** The four parallel arrays of one detector call. *)
Definition batch : Type :=
  (matrix F * list F * list (Landmark F) * option (ndarray F))%type.

(** All present arrays have one entry per detected face; boxes are N x 4. *)
Definition batch_wf (b : batch) : Prop :=
  let '(boxes, probs, landmarks, mask_probs) := b in
  ncols boxes = 4%nat /\
  length probs = nrows boxes /\
  length landmarks = nrows boxes /\
  from_option (fun a => len_nd a = nrows boxes) True mask_probs.

(** [(boxes[:, 2] - boxes[:, 0]) * (boxes[:, 3] - boxes[:, 1])] *)
Definition box_area (boxes : matrix F) : result (list F) :=
  x2 ← col 2 boxes; x0 ← col 0 boxes;
  x3 ← col 3 boxes; x1 ← col 1 boxes;
  mret (zip_with fmul (zip_with fsub x2 x0) (zip_with fsub x3 x1)).

(** [(boxes[:, a] + boxes[:, b]) / 2 - c] *)
Definition center_offset (boxes : matrix F) (a b : nat) (c : Z) : result (list F) :=
  xa ← col a boxes; xb ← col b boxes;
  mret ((fun s => fsub (fdiv s (of_Z 2)) (of_Z c)) <$> zip_with fadd xa xb).

(** [sort_boxes]; [shape] holds the first two extents of the frame shape,
    and the centre offsets are computed but do not enter [values]. *)
Definition sort_boxes (boxes : matrix F) (probs : list F)
    (landmarks : list (Landmark F)) (mask_probs : option (ndarray F))
    (shape : Z * Z) (max_num : Z) : result batch :=
  if bool_decide (max_num > 0) && bool_decide (Z.of_nat (nrows boxes) > max_num) then
    area ← box_area boxes;
    let img_center := (shape.1 `div` 2, shape.2 `div` 2) in
    off_x ← center_offset boxes 0 2 img_center.2;
    off_y ← center_offset boxes 1 3 img_center.1;
    let offsets := [off_x; off_y] in
    let squares := fmap (fun x => fpow x (of_Z 2)) <$> offsets in
    let offset_dist_squared :=
      foldl (zip_with fadd) (default [] (head squares)) (tail squares) in
    let values := area in
    let bindex := reverse (argsort values) in
    let bindex := take (Z.to_nat max_num) bindex in
    boxes' ← gather_rows boxes bindex;
    probs' ← gather probs bindex;
    mask_probs' ← match mask_probs with
                  | Some a => Some <$> gather_rows_nd a bindex
                  | None => mret None
                  end;
    landmarks' ← gather landmarks bindex;
    mret (boxes', probs', landmarks', mask_probs')
  else
    mret (boxes, probs, landmarks, mask_probs).

(** The indices [sort_boxes] keeps, in the order it keeps them. *)
Definition selection (boxes : matrix F) (max_num : Z) : list nat :=
  take (Z.to_nat max_num) (reverse (argsort (area_of <$> rows boxes))).

(** [b'] holds, entry for entry, the entries of [b] at [bindex]. *)
Definition selects (bindex : list nat) (b b' : batch) : Prop :=
  let '(boxes, probs, landmarks, mask_probs) := b in
  let '(boxes', probs', landmarks', mask_probs') := b' in
  ncols boxes' = ncols boxes /\
  Forall2 (fun i r => rows boxes !! i = Some r) bindex (rows boxes') /\
  Forall2 (fun i p => probs !! i = Some p) bindex probs' /\
  Forall2 (fun i l => landmarks !! i = Some l) bindex landmarks' /\
  match mask_probs, mask_probs' with
  | None, None => True
  | Some (Mat m), Some (Mat m') =>
      Forall2 (fun i r => rows m !! i = Some r) bindex (rows m')
  | _, _ => False
  end.

(** Arrays that [dets / scale] applies to: every scalar is divided. *)
Class Elementwise (A : Type) : Type := emap : (F -> F) -> A -> A.
Global Instance elementwise_scalar : Elementwise F := fun f x => f x.
Global Instance elementwise_list `{Elementwise A} : Elementwise (list A) :=
  fun f l => emap f <$> l.

Definition reproject_points `{Elementwise A} (dets : A) (scale : F) : A :=
  if negb (feqb scale fone) then emap (fun x => fdiv x scale) dets else dets.

(** The same function on references: Python names are references to
    arrays on the heap, [dets / scale] allocates a new array and the
    assignment rebinds the local name only. A heap is the list of the
    arrays allocated so far; a reference is a position in it. *)
Definition heap (A : Type) : Type := list A.
Definition ref : Type := nat.

Definition alloc {A} (h : heap A) (a : A) : heap A * ref := (h ++ [a], length h).

Definition reproject_points_ref `{Elementwise A}
    (h : heap A) (dets : ref) (scale : F) : option (heap A * ref) :=
  if negb (feqb scale fone) then
    a ← h !! dets;
    Some (alloc h (emap (fun x => fdiv x scale) a))
  else Some (h, dets).

End Selection.

(** ** Effects: collaborator calls and attribute reads *)

Inductive attr : Set := AttrMasks | AttrInputShape.

(** What a run does to the outside, in order. *)
Inductive event : Type :=
  | EvGetModel (name : string)
  | EvPrepare (ctx_id : Z)
  | EvGetAttr (a : attr)
  | EvImageData (max_size : option (list Z))
  | EvDetect
  | EvSleep
  | EvNormCrop
  | EvGetEmbedding (ncrops : nat)
  | EvGaGet (ncrops : nat).

(** A computation: the trace of its events and its result or exception. *)
Definition M (A : Type) : Type := (list event * result A)%type.

Global Instance M_ret : MRet M := fun A a => ([], Ok a).
Global Instance M_bind : MBind M := fun A B f m =>
  match m.2 with
  | Ok a => (m.1 ++ (f a).1, (f a).2)
  | Raise e => (m.1, Raise e)
  end.
Global Instance M_fmap : FMap M := fun A B f m => (m.1, f <$> m.2).

(** A pure step that may raise. *)
Definition lift {A} (r : result A) : M A := ([], r).
(** A call to a collaborator. *)
Definition call {A} (ev : event) (r : result A) : M A := ([ev], r).
(** [obj.a], which raises when the object has no such attribute. *)
Definition getattr {A} (a : attr) (v : option A) : M A :=
  call (EvGetAttr a) (from_option Ok (Raise AttributeError) v).
(** [try: m except: h] with a bare handler. *)
Definition try_except {A} (m : M A) (h : M A) : M A :=
  match m.2 with
  | Ok a => m
  | Raise _ => (m.1 ++ h.1, h.2)
  end.

Definition device2ctx (device : string) : result Z :=
  if bool_decide (device = "cpu") then Ok (-1)
  else if bool_decide (device = "cuda") then Ok 0
  else Raise KeyError.

(** Modelled from the spec: [to_chunks] of [modules.utils.helpers], which is
    not part of the sources at hand. "Splits sequence into consecutive groups
    of length chunk_size, last group possibly shorter; chunk_size <= 0 is
    invalid and fails with InvalidConfigError"; "for len(seq) = 0, returns
    zero chunks". *)
Fixpoint chunks_of {A} (fuel k : nat) (l : list A) : list (list A) :=
  match fuel, l with
  | S fuel', _ :: _ => take k l :: chunks_of fuel' k (drop k l)
  | _, _ => []
  end.

(** Modelled from the spec: [to_chunks], on top of [chunks_of] with as much
    fuel as the sequence has entries. *)
Definition to_chunks {A} (l : list A) (chunk_size : Z) : result (list (list A)) :=
  if bool_decide (chunk_size <= 0) then Raise InvalidConfigError
  else Ok (chunks_of (length l) (Z.to_nat chunk_size) l).

(** ** The pipeline *)

Section Pipeline.
Context {F : Type} `{Scalar F} `{!Argsort F}.
(** Image buffers and aligned face crops are opaque to this module. *)
Context {Image Crop : Type}.

(** The [Face] named tuple; every field defaults to [None]. *)
Record Face : Type := mkFace {
  bbox : option (list F);
  landmark : option (Landmark F);
  det_score : option F;
  embedding : option (list F);
  gender : option Z;
  age : option F;
  embedding_norm : option F;
  normed_embedding : option (list F);
  facedata : option Crop;
  scale : option F;
  num_det : option nat;
  mask_prob : option (item F)
}.

(** [face._replace(facedata=None)] *)
Definition replace_facedata (f : Face) (fd : option Crop) : Face :=
  mkFace (bbox f) (landmark f) (det_score f) (embedding f) (gender f) (age f)
         (embedding_norm f) (normed_embedding f) fd (scale f) (num_det f)
         (mask_prob f).

(** [face._replace(embedding=.., embedding_norm=.., normed_embedding=..,
    gender=.., age=..)] *)
Definition replace_attributes (f : Face) (e : option (list F)) (en : option F)
    (ne : option (list F)) (g : option Z) (a : option F) : Face :=
  mkFace (bbox f) (landmark f) (det_score f) e g a en ne (facedata f)
         (scale f) (num_det f) (mask_prob f).

(** The detection model behind [Detector.retina]: its [detect] method and
    the two attributes the module reads, [None] when the object has no
    such attribute (or, for [input_shape], none that can be sliced). *)
Record Retina : Type := {
  retina_detect : Image -> F -> result (matrix F * list (Landmark F));
  retina_masks : option bool;
  retina_input_shape : option (list Z)
}.

Record RecModel : Type := {
  get_embedding : list (option Crop) -> result (list (list F))
}.

Record GaModel : Type := {
  ga_get : list (option Crop) -> result (list (F * F))
}.

(** An [ImageData] after [resize_image(mode="pad")]; [transformed_shape]
    holds the first two extents of [transformed_image.shape]. *)
Record ImageData : Type := {
  orig_image : Image;
  transformed_image : Image;
  transformed_shape : Z * Z;
  scale_factor : F
}.

(** The functions imported from the rest of the package and from numpy
    ([norm] is [numpy.linalg.norm], applied to one embedding vector). *)
Record Env : Type := {
  norm : list F -> F;
  get_model : string -> string -> bool -> list Z -> result Retina;
  model_prepare : Retina -> Z -> result Retina;
  image_data : Image -> option (list Z) -> result ImageData;
  norm_crop : Image -> Landmark F -> result Crop
}.

Variable env : Env.

(** *** [Detector] *)

Record Detector : Type := { retina : Retina }.

Definition Detector_init (device det_name : string) (max_size : option (list Z))
    (backend_name : string) (force_fp16 : bool) : M Detector :=
  let max_size := default [640; 480] max_size in
  r ← call (EvGetModel det_name)
           (get_model env det_name backend_name force_fp16 max_size);
  ctx ← lift (device2ctx device);
  r ← call (EvPrepare ctx) (model_prepare env r ctx);
  mret {| retina := r |}.

Definition Detector_detect (self : Detector) (data : Image) (threshold : F)
    : M (@batch F) :=
  '(bboxes, landmarks) ← call EvDetect (retina_detect (retina self) data threshold);
  let boxes := col_slice 0 4 bboxes in
  probs ← lift (col 4 bboxes);
  mask_probs ← try_except
    (masks ← getattr AttrMasks (retina_masks (retina self));
     if masks : bool then
       c ← lift (col 5 bboxes); mret (Some (Vec c))
     else mret None)
    (mret None);
  mret (boxes, probs, landmarks, mask_probs).

(** *** [FaceAnalysis]

    The attributes [__init__] sets and the methods below read; a model is
    [None] when its name was [None]. *)

Record FaceAnalysis : Type := {
  det_model : Detector;
  rec_model : option RecModel;
  ga_model : option GaModel;
  max_rec_batch_size : Z
}.

(** [int(_ga[0])]; [int(None)] is a type error. *)
Definition py_int_opt (x : option F) : result Z :=
  from_option py_int (Raise TypeError) x.

(** [took / total] inside the debug message, evaluated whatever the log level. *)
Definition per_face (total : nat) : M () :=
  if bool_decide (total = 0%nat) then lift (Raise ZeroDivisionError) else mret ().

(** The body of [for i, crop in enumerate(crops)]. *)
Definition assemble (chunk : list Face) (embeddings : list (option (list F)))
    (ga : list (option F * option F))
    (extract_embedding extract_ga return_face_data : bool) (i : nat) : result Face :=
  embedding ← index embeddings i;
  '(embedding_norm, normed_embedding) ←
    (if extract_embedding then
       e ← from_option Ok (Raise TypeError) embedding;
       let embedding_norm := norm env e in
       mret (Some embedding_norm, Some ((fun x => fdiv x embedding_norm) <$> e))
     else mret (None, None));
  _ga ← index ga i;
  '(gender, age) ←
    (if extract_ga then
       g ← py_int_opt _ga.1; mret (Some g, _ga.2)
     else mret (None, None));
  face ← index chunk i;
  let face := if return_face_data then face else replace_facedata face None in
  mret (replace_attributes face embedding embedding_norm normed_embedding gender age).

(** The body of [for chunk in chunked_faces]. *)
Definition process_chunk (self : FaceAnalysis) (chunk : list Face)
    (extract_embedding extract_ga return_face_data : bool) : M (list Face) :=
  let crops := facedata <$> chunk in
  let total := length crops in
  embeddings ←
    (if extract_embedding then
       m ← lift (from_option Ok (Raise AttributeError) (rec_model self));
       out ← call (EvGetEmbedding total) (get_embedding m crops);
       per_face total;;
       mret (Some <$> out)
     else mret (replicate total None));
  ga ←
    (if extract_ga then
       m ← lift (from_option Ok (Raise AttributeError) (ga_model self));
       out ← call (EvGaGet total) (ga_get m crops);
       per_face total;;
       mret ((fun p => (Some p.1, Some p.2)) <$> out)
     else mret (replicate total (None, None)));
  lift (mapM (assemble chunk embeddings ga extract_embedding extract_ga
                       return_face_data) (seq 0 total)).

Definition process_faces (self : FaceAnalysis) (faces : list Face)
    (extract_embedding extract_ga return_face_data : bool) : M (list Face) :=
  chunked_faces ← lift (to_chunks faces (max_rec_batch_size self));
  fmap (M:=M) mjoin
       (mapM (M:=M) (fun chunk => process_chunk self chunk extract_embedding
                                    extract_ga return_face_data) chunked_faces).

(** The body of [for i in range(len(boxes))] in [get]. *)
Definition make_face (img : ImageData) (b : @batch F) (i : nat) : M Face :=
  let '(boxes, probs, landmarks, mask_probs) := b in
  box ← lift (index (rows boxes) i);
  let bbox := reproject_points box (scale_factor img) in
  lm ← lift (index landmarks i);
  let landmark := reproject_points lm (scale_factor img) in
  det_score ← lift (index probs i);
  mask_prob ← match mask_probs with
              | Some a => Some <$> lift (index_nd a i)
              | None => mret None
              end;
  _crop ← call EvNormCrop (norm_crop env (orig_image img) landmark);
  mret (mkFace (Some bbox) (Some landmark) (Some det_score) None None None
               None None (Some _crop) (Some (scale_factor img)) (Some i)
               mask_prob).

(** The [try] block at the head of [get]: "if detector has input_shape
    attribute, use it instead of provided value". *)
Definition detector_max_size (self : FaceAnalysis) (max_size : option (list Z))
    : M (option (list Z)) :=
  try_except
    (input_shape ← getattr AttrInputShape
                     (retina_input_shape (retina (det_model self)));
     mret (Some (reverse (drop 2 input_shape))))
    (mret max_size).

(** The value [max_size] holds after that block. *)
Definition effective_max_size (self : FaceAnalysis) (max_size : option (list Z))
    : option (list Z) :=
  match retina_input_shape (retina (det_model self)) with
  | Some input_shape => Some (reverse (drop 2 input_shape))
  | None => max_size
  end.

(** [FaceAnalysis.get]. [boxes] is an array whenever [detect] returns, so
    the test [not isinstance(boxes, type(None))] always passes. *)
Definition get (self : FaceAnalysis) (img : Image)
    (extract_embedding extract_ga return_face_data : bool)
    (max_size : option (list Z)) (threshold : F) (limit_faces : Z) : M (list Face) :=
  max_size ← detector_max_size self max_size;
  img ← call (EvImageData max_size) (image_data env img max_size);
  b ← Detector_detect (det_model self) (transformed_image img) threshold;
  call EvSleep (Ok ());;
  b ← (if bool_decide (limit_faces > 0) then
         let '(boxes, probs, landmarks, mask_probs) := b in
         lift (sort_boxes boxes probs landmarks mask_probs
                          (transformed_shape img) limit_faces)
       else mret b);
  faces ← mapM (M:=M) (make_face img b) (seq 0 (nrows b.1.1.1));
  process_faces self faces extract_embedding extract_ga return_face_data.

(** What [process_faces] leaves in the attribute fields of a record. *)
Definition face_attributes_ok (self : FaceAnalysis)
    (extract_embedding extract_ga : bool) (f : Face) : Prop :=
  (if extract_embedding then
     exists m crops out i e,
       rec_model self = Some m /\ get_embedding m crops = Ok out /\
       out !! i = Some e /\
       embedding f = Some e /\
       embedding_norm f = Some (norm env e) /\
       normed_embedding f = Some ((fun x => fdiv x (norm env e)) <$> e)
   else embedding f = None /\ embedding_norm f = None /\
        normed_embedding f = None) /\
  (if extract_ga then
     exists m crops out i g a z,
       ga_model self = Some m /\ ga_get m crops = Ok out /\
       out !! i = Some (g, a) /\ py_int g = Ok z /\
       gender f = Some z /\ age f = Some a
   else gender f = None /\ age f = None).

End Pipeline.

(** *** [FaceAnalysis.__init__] *)

Section Construction.
Context {F : Type} `{Scalar F} {Image Crop : Type}.

(** [get_model] as [__init__] calls it for the recognition model and for
    the gender/age model (name, backend, [force_fp16], [max_batch_size]),
    and the [prepare] method of what it returns ([ctx_id]). *)
Record Zoo : Type := {
  get_rec_model : string -> string -> bool -> Z -> result (RecModel (F:=F) (Crop:=Crop));
  rec_prepare : RecModel (F:=F) (Crop:=Crop) -> Z -> result (RecModel (F:=F) (Crop:=Crop));
  get_ga_model : string -> string -> bool -> Z -> result (GaModel (F:=F) (Crop:=Crop));
  ga_prepare : GaModel (F:=F) (Crop:=Crop) -> Z -> result (GaModel (F:=F) (Crop:=Crop))
}.

Variable env : Env (F:=F) (Image:=Image) (Crop:=Crop).
Variable zoo : Zoo.

(** The batch size [__init__] keeps: "Batch processing supported only for
    TensorRT backend. Fallback to 1." *)
Definition rec_batch_size (backend_name : string) (max_rec_batch_size : Z) : Z :=
  if negb (bool_decide (backend_name = "trt") || bool_decide (backend_name = "triton"))
     && negb (bool_decide (max_rec_batch_size = 1))
  then 1 else max_rec_batch_size.

(** [FaceAnalysis.__init__]; [det_name] is a name (the constructor asserts
    that it is not [None]), [rec_name] and [ga_name] may be [None]. The
    attribute [max_size] it also sets is read nowhere else. *)
Definition FaceAnalysis_init (det_name : string) (rec_name ga_name : option string)
    (device : string) (max_size : option (list Z)) (max_rec_batch_size : Z)
    (backend_name : string) (force_fp16 : bool) : M (FaceAnalysis (Image:=Image)) :=
  let max_size := default [640; 640] max_size in
  let max_rec_batch_size := rec_batch_size backend_name max_rec_batch_size in
  ctx ← lift (device2ctx device);
  det_model ← Detector_init env device det_name (Some max_size) backend_name force_fp16;
  rec_model ← match rec_name with
               | Some name =>
                   m ← call (EvGetModel name)
                            (get_rec_model zoo name backend_name force_fp16
                                           max_rec_batch_size);
                   m ← call (EvPrepare ctx) (rec_prepare zoo m ctx);
                   mret (Some m)
               | None => mret None
               end;
  ga_model ← match ga_name with
              | Some name =>
                  m ← call (EvGetModel name)
                           (get_ga_model zoo name backend_name force_fp16
                                         max_rec_batch_size);
                  m ← call (EvPrepare ctx) (ga_prepare zoo m ctx);
                  mret (Some m)
              | None => mret None
              end;
  mret {| det_model := det_model; rec_model := rec_model; ga_model := ga_model;
          max_rec_batch_size := max_rec_batch_size |}.

End Construction.

(** *** Records of a run, for the statements below *)

Section Records.
Context {F : Type} `{Scalar F} {Image Crop : Type}.
Implicit Types (f o : Face (F:=F) (Crop:=Crop)).

(** [o] carries the detection fields of [f], and its crop when crops are
    to be returned. *)
Definition keeps_detection (return_face_data : bool) f o : Prop :=
  bbox o = bbox f /\ landmark o = landmark f /\ det_score o = det_score f /\
  scale o = scale f /\ num_det o = num_det f /\ mask_prob o = mask_prob f /\
  facedata o = (if return_face_data then facedata f else None).

(** [f] after [process_faces] when nothing is to be extracted. *)
Definition without_attributes (return_face_data : bool) f : Face (F:=F) (Crop:=Crop) :=
  replace_attributes (if return_face_data then f else replace_facedata f None)
                     None None None None None.

(** The model calls [process_faces] makes for a chunk of [n] faces. *)
Definition chunk_calls (extract_embedding extract_ga : bool) (n : nat) : list event :=
  (if extract_embedding then [EvGetEmbedding n] else []) ++
  (if extract_ga then [EvGaGet n] else []).

(** The records [oc] of a chunk carry what the models answer when they are
    handed the crops of the chunk's faces, in the order of the faces: the
    embedding model's answer entry for entry as [embedding], the attribute
    model's as [gender] (through [int]) and [age]. Entries a model returns
    beyond the number of crops are not read. *)
Definition chunk_answers (self : FaceAnalysis (F:=F) (Image:=Image) (Crop:=Crop))
    (extract_embedding extract_ga : bool) (chunk oc : list (Face (F:=F) (Crop:=Crop)))
    : Prop :=
  (extract_embedding = true ->
   exists m es,
     rec_model self = Some m /\
     get_embedding m (facedata <$> chunk) = Ok es /\
     Forall2 (fun o e => embedding o = Some e) oc (take (length chunk) es)) /\
  (extract_ga = true ->
   exists m gs,
     ga_model self = Some m /\
     ga_get m (facedata <$> chunk) = Ok gs /\
     Forall2 (fun o g => exists z, py_int g.1 = Ok z /\ gender o = Some z /\
                                   age o = Some g.2)
             oc (take (length chunk) gs)).

(** [f] is the candidate [get] builds for entry [i] of the batch [b]:
    box and landmark divided by the scale factor, the crop taken from the
    original image at the reprojected landmark. *)
Definition candidate_of (env : Env (F:=F) (Image:=Image) (Crop:=Crop))
    (img : ImageData (F:=F) (Image:=Image)) (b : @batch F) (i : nat) f : Prop :=
  let '(boxes, probs, landmarks, mask_probs) := b in
  exists box lm p crop,
    rows boxes !! i = Some box /\ landmarks !! i = Some lm /\ probs !! i = Some p /\
    norm_crop env (orig_image img) (reproject_points lm (scale_factor img)) = Ok crop /\
    bbox f = Some (reproject_points box (scale_factor img)) /\
    landmark f = Some (reproject_points lm (scale_factor img)) /\
    det_score f = Some p /\
    facedata f = Some crop /\
    scale f = Some (scale_factor img) /\
    num_det f = Some i /\
    match mask_probs with
    | Some a => exists x, index_nd a i = Ok x /\ mask_prob f = Some x
    | None => mask_prob f = None
    end.

End Records.

(** ** Exact rationals as scalars

    The instance the statements below are run on. [int(x)] truncates toward
    zero; a power truncates its exponent (the module only raises to 2.0). *)

Definition Q_int (x : Q) : Z :=
  if Qle_bool 0 x then Qfloor x else Qceiling x.

Global Instance Q_scalar : Scalar Q := {|
  fadd := Qplus;
  fsub := Qminus;
  fmul := Qmult;
  fdiv := Qdiv;
  fpow := fun x y => Qpower x (Q_int y);
  of_Z := inject_Z;
  flt := fun x y => negb (Qle_bool y x);
  feqb := Qeq_bool;
  py_int := fun x => Ok (Q_int x)
|}.

(** [np.argsort] on the example arrays, none of which has more than three
    entries: numpy's insertion sort. *)
Global Instance Q_argsort : Argsort Q := insertion_argsort.

(** ** Example inputs *)

(** Three boxes of areas 1, 4 and 9, with their scores and landmarks. *)
Definition ex_boxes : matrix Q :=
  Matrix 4 [[0; 0; 1; 1]; [0; 0; 2; 2]; [0; 0; 3; 3]]%Q.
Definition ex_probs : list Q := [0.9; 0.8; 0.7]%Q.
Definition ex_landmarks : list (Landmark Q) := [[[1; 1]]; [[2; 2]]; [[3; 3]]]%Q.
(** One mask probability per box, as [bboxes[:, 5]] gives them. *)
Definition ex_masks : list Q := [0.1; 0.2; 0.3]%Q.
(** Three boxes of the same area 4. *)
Definition ex_tied_boxes : matrix Q :=
  Matrix 4 [[0; 0; 2; 2]; [1; 1; 3; 3]; [2; 2; 4; 4]]%Q.
Definition ex_shape : Z * Z := (480, 640).

(** A mask-capable detector: image 0 shows no face, and the detector then
    answers with an empty array of five columns; image 1 shows one face and
    any other image two, reported with six columns. *)
Definition ex_retina : Retina (F:=Q) (Image:=nat) := {|
  retina_detect := fun img _ =>
    match img with
    | 0%nat => Ok (Matrix 5 [], [])
    | 1%nat =>
        Ok (Matrix 6 [[100; 100; 200; 200; 0.9; 0.2]]%Q,
            [[[120; 130]; [180; 130]; [150; 160]; [130; 180]; [170; 180]]]%Q)
    | _ =>
        Ok (Matrix 6 [[100; 100; 200; 200; 0.9; 0.2];
                      [300; 100; 350; 150; 0.8; 0.7]]%Q,
            [[[120; 130]; [180; 130]; [150; 160]; [130; 180]; [170; 180]];
             [[310; 110]; [340; 110]; [325; 125]; [315; 140]; [335; 140]]]%Q)
    end;
  retina_masks := Some true;
  retina_input_shape := Some [1; 3; 480; 640]
|}.

(** The embedding model returns the vector (3, 4) for every crop, whose
    Euclidean norm is 5; the attribute model returns gender 1 and age 30. *)
Definition ex_env : Env (F:=Q) (Image:=nat) (Crop:=nat) := {|
  norm := fun _ => 5%Q;
  get_model := fun _ _ _ _ => Ok ex_retina;
  model_prepare := fun r _ => Ok r;
  image_data := fun img _ =>
    Ok {| orig_image := img; transformed_image := img;
          transformed_shape := ex_shape; scale_factor := 1%Q |};
  norm_crop := fun img _ => Ok img
|}.

Definition ex_detector : Detector (F:=Q) (Image:=nat) := {| retina := ex_retina |}.

Definition ex_self : FaceAnalysis (F:=Q) (Image:=nat) (Crop:=nat) := {|
  det_model := ex_detector;
  rec_model := Some {| get_embedding := fun crops => Ok (replicate (length crops) [3; 4]%Q) |};
  ga_model := Some {| ga_get := fun crops => Ok (replicate (length crops) (1, 30)%Q) |};
  max_rec_batch_size := 2
|}.

(** The recognition and attribute models of [ex_self], as [get_model]
    returns them; [prepare] leaves them as they are. *)
Definition ex_zoo : Zoo (F:=Q) (Crop:=nat) := {|
  get_rec_model := fun _ _ _ _ =>
    Ok {| get_embedding := fun crops => Ok (replicate (length crops) [3; 4]%Q) |};
  rec_prepare := fun m _ => Ok m;
  get_ga_model := fun _ _ _ _ =>
    Ok {| ga_get := fun crops => Ok (replicate (length crops) (1, 30)%Q) |};
  ga_prepare := fun m _ => Ok m
|}.

(** A face candidate with every field empty, a pipeline without
    recognition model, and one whose detector always fails. *)
Definition ex_face : Face (F:=Q) (Crop:=nat) :=
  mkFace None None None None None None None None None None None None.

(** Three candidates that differ in their crops only. *)
Definition ex_candidates : list (Face (F:=Q) (Crop:=nat)) :=
  (fun crop => replace_facedata ex_face (Some crop)) <$> [7; 8; 9]%nat.

Definition ex_self_no_rec : FaceAnalysis (F:=Q) (Image:=nat) (Crop:=nat) := {|
  det_model := ex_detector;
  rec_model := None;
  ga_model := ga_model ex_self;
  max_rec_batch_size := 1
|}.

Definition ex_self_failing : FaceAnalysis (F:=Q) (Image:=nat) (Crop:=nat) := {|
  det_model := {| retina := {| retina_detect := fun _ _ => Raise BackendError;
                               retina_masks := None;
                               retina_input_shape := None |} |};
  rec_model := rec_model ex_self;
  ga_model := ga_model ex_self;
  max_rec_batch_size := 1
|}.

(** * Properties *)

(** ** The rationals are ordered scalars *)

Lemma Q_flt_lt (x y : Q) : flt x y = true <-> (x < y)%Q.
Proof.
  unfold flt; simpl. rewrite negb_true_iff.
  split.
  - intros Hle. apply Qnot_le_lt. intros Hyx.
    apply Qle_bool_iff in Hyx. congruence.
  - intros Hlt. destruct (Qle_bool y x) eqn:E; [|done].
    apply Qle_bool_iff in E. exfalso. by eapply Qlt_not_le.
Qed.

Global Instance Q_order : ScalarOrder Q.
Proof.
  split.
  - intros x. destruct (flt x x) eqn:E; [|done].
    apply Q_flt_lt in E. exfalso. by eapply Qlt_irrefl.
  - intros x y z. rewrite !Q_flt_lt. apply Qlt_trans.
  - intros x y z. rewrite !Q_flt_lt. intros Hxz.
    destruct (Qlt_le_dec x y) as [Hxy|Hyx]; [by left|right].
    by eapply Qle_lt_trans.
Qed.

(** ** Results and indexing *)

Section ResultFacts.
Context {A B : Type}.

Lemma index_Ok (l : list A) i x : index l i = Ok x <-> l !! i = Some x.
Proof. unfold index. destruct (l !! i); split; congruence. Qed.

Lemma index_lt (l : list A) i : (i < length l)%nat -> exists x, index l i = Ok x.
Proof.
  intros Hi. destruct (lookup_lt_is_Some_2 l i Hi) as [x Hx].
  exists x. by apply index_Ok.
Qed.

Lemma result_bind_Ok (r : result A) (f : A -> result B) b :
  r ≫= f = Ok b -> exists a, r = Ok a /\ f a = Ok b.
Proof. destruct r as [a|e]; simpl; [|done]. intros Hf. by exists a. Qed.

Lemma mapM_result_Ok (f : A -> result B) l k :
  mapM f l = Ok k <-> Forall2 (fun x y => f x = Ok y) l k.
Proof.
  revert k. induction l as [|x l IH]; intros k; simpl.
  - split; [intros [= <-]; constructor | by inversion 1].
  - split.
    + intros Hm. destruct (f x) as [y|] eqn:Hfx; simpl in Hm; [|done].
      destruct (mapM f l) as [k'|] eqn:Hl; simpl in Hm; [|done].
      injection Hm as <-. constructor; [done|]. by apply IH.
    + inversion 1 as [|? y ? k' Hy Hk]; subst. rewrite Hy; simpl.
      apply IH in Hk. by rewrite Hk.
Qed.

Lemma mapM_result_total (f : A -> result B) l :
  Forall (fun x => exists y, f x = Ok y) l -> exists k, mapM f l = Ok k.
Proof.
  induction 1 as [|x l [y Hy] _ [k Hk]]; simpl.
  - by eexists.
  - rewrite Hy; simpl. rewrite Hk; simpl. by eexists.
Qed.

End ResultFacts.

Section GatherFacts.
Context {A : Type}.

Lemma gather_Ok (a : list A) bindex out :
  gather a bindex = Ok out <-> Forall2 (fun i x => a !! i = Some x) bindex out.
Proof.
  unfold gather. rewrite mapM_result_Ok.
  split; intros Hf; (eapply Forall2_impl; [exact Hf|]);
    intros i x; by rewrite index_Ok.
Qed.

Lemma gather_total (a : list A) bindex :
  Forall (fun i => (i < length a)%nat) bindex -> exists out, gather a bindex = Ok out.
Proof.
  intros Hb. apply mapM_result_total. eapply Forall_impl; [done|].
  intros i Hi. by apply index_lt.
Qed.

End GatherFacts.

(** ** Sorted lists *)

Section SortedFacts.
Context {A : Type}.

Lemma StronglySorted_reverse (R : relation A) l :
  StronglySorted R l -> StronglySorted (flip R) (reverse l).
Proof.
  induction l as [|x l IH]; [constructor|].
  rewrite StronglySorted_cons, reverse_cons. intros [Hx Hl].
  apply StronglySorted_app_2; [|by apply IH|repeat constructor].
  intros y z Hy Hz. apply list_elem_of_singleton in Hz as ->.
  rewrite elem_of_reverse in Hy. rewrite Forall_forall in Hx.
  unfold flip. by apply Hx.
Qed.

(** A sorted list stays sorted under a relation that holds wherever the
    first one holds between two of its entries. *)
Lemma StronglySorted_impl_elem (R R' : relation A) l :
  (forall x y, x ∈ l -> y ∈ l -> R x y -> R' x y) ->
  StronglySorted R l -> StronglySorted R' l.
Proof.
  induction l as [|a l IH]; intros HR; [constructor|].
  rewrite !StronglySorted_cons. intros [Ha Hl]. split.
  - rewrite Forall_forall in Ha. apply Forall_forall. intros y Hy.
    apply HR; [by left|by right|by apply Ha].
  - apply IH; [|done]. intros x y Hx Hy. apply HR; by right.
Qed.

End SortedFacts.

(** ** The insertion sort is an [argsort] *)

Section ArgsortFacts.
Context {F : Type} `{ScalarOrder F}.

Lemma flt_asym (x y : F) : flt x y = true -> flt y x = false.
Proof.
  intros Hxy. destruct (flt y x) eqn:Hyx; [|done].
  pose proof (flt_trans _ _ _ Hxy Hyx) as Hxx.
  by rewrite flt_irrefl in Hxx.
Qed.

Lemma fle_trans (x y z : F) : fle x y = true -> fle y z = true -> fle x z = true.
Proof.
  unfold fle. rewrite !negb_true_iff. intros Hyx Hzy.
  destruct (flt z x) eqn:Hzx; [|done].
  destruct (flt_cotrans _ y _ Hzx); congruence.
Qed.

Lemma insert_right_perm (x : nat * F) racc : insert_right x racc ≡ₚ x :: racc.
Proof.
  induction racc as [|y rest IH]; simpl; [done|].
  destruct (flt x.2 y.2); [|done].
  rewrite IH. apply Permutation_swap.
Qed.

Lemma insert_right_sorted (x : nat * F) racc :
  StronglySorted ranks_before racc ->
  Forall (fun y => (y.1 < x.1)%nat) racc ->
  StronglySorted ranks_before (insert_right x racc).
Proof.
  induction racc as [|y rest IH]; simpl; intros Hs Hlt.
  { repeat constructor. }
  apply StronglySorted_cons in Hs as [Hy Hs].
  apply Forall_cons in Hlt as [Hyx Hlt].
  destruct (flt x.2 y.2) eqn:Hxy.
  - apply StronglySorted_cons. split; [|by apply IH].
    rewrite insert_right_perm. constructor; [|done].
    split; unfold fle.
    + by rewrite (flt_asym _ _ Hxy).
    + by rewrite Hxy.
  - assert (ranks_before x y) as Hbefore.
    { split; unfold fle; [by rewrite Hxy|done]. }
    apply StronglySorted_cons. split; [|by apply StronglySorted_cons].
    constructor; [done|].
    rewrite Forall_forall in Hy, Hlt. apply Forall_forall. intros z Hz.
    split; [|intros _; by apply Hlt].
    destruct (Hy z Hz) as [Hzy _]. destruct Hbefore as [Hyx' _].
    by eapply fle_trans.
Qed.

Lemma foldl_insert_perm (l acc : list (nat * F)) :
  foldl (fun racc x => insert_right x racc) acc l ≡ₚ l ++ acc.
Proof.
  revert acc. induction l as [|x l IH]; intros acc; simpl; [done|].
  rewrite IH, insert_right_perm. by rewrite Permutation_middle.
Qed.

Lemma foldl_insert_sorted (l acc : list (nat * F)) :
  StronglySorted ranks_before acc ->
  StronglySorted (fun x y => (x.1 < y.1)%nat) l ->
  (forall a x, a ∈ acc -> x ∈ l -> (a.1 < x.1)%nat) ->
  StronglySorted ranks_before (foldl (fun racc x => insert_right x racc) acc l).
Proof.
  revert acc. induction l as [|x l IH]; intros acc Hacc Hl Hlt; simpl; [done|].
  apply StronglySorted_cons in Hl as [Hx Hl].
  apply IH; [|done|].
  - apply insert_right_sorted; [done|].
    apply Forall_forall. intros a Ha. apply Hlt; [done|]. by left.
  - intros a x' Ha Hx'. rewrite insert_right_perm in Ha.
    apply elem_of_cons in Ha as [->|Ha].
    + rewrite Forall_forall in Hx. by apply Hx.
    + apply Hlt; [done|]. by right.
Qed.

Lemma imap_pair_fst (v : list F) (k : nat) :
  (imap (fun i x => ((k + i)%nat, x)) v).*1 = seq k (length v).
Proof.
  revert k. induction v as [|x v IH]; intros k; simpl; [done|].
  f_equal; [lia|]. rewrite <- (IH (S k)). f_equal.
  apply imap_ext. intros i y _. simpl. f_equal. lia.
Qed.

Lemma imap_pair_indices (v : list F) : (imap pair v).*1 = seq 0 (length v).
Proof.
  exact (imap_pair_fst v 0).
Qed.

Lemma sorted_rev_perm (v : list F) : sorted_rev v ≡ₚ imap pair v.
Proof. unfold sorted_rev. by rewrite foldl_insert_perm, app_nil_r. Qed.

Lemma sorted_rev_indices (v : list F) : (sorted_rev v).*1 ≡ₚ seq 0 (length v).
Proof. by rewrite sorted_rev_perm, imap_pair_indices. Qed.

Lemma sorted_rev_elem (v : list F) i x :
  (i, x) ∈ sorted_rev v <-> v !! i = Some x.
Proof.
  rewrite sorted_rev_perm, elem_of_lookup_imap. split.
  - intros (j & y & [= -> ->] & Hj). done.
  - intros Hi. by exists i, x.
Qed.

Lemma seq_sorted (k n : nat) : StronglySorted lt (seq k n).
Proof.
  revert k. induction n as [|n IH]; intros k; simpl; constructor; [done|].
  apply Forall_seq. intros i Hi. lia.
Qed.

Lemma fst_sorted (l : list (nat * F)) :
  StronglySorted lt l.*1 -> StronglySorted (fun x y => (x.1 < y.1)%nat) l.
Proof.
  induction l as [|a l IH]; [constructor|].
  rewrite fmap_cons, !StronglySorted_cons, Forall_fmap.
  intros [Ha Hl]. split; [exact Ha|by apply IH].
Qed.

Lemma sorted_rev_sorted (v : list F) : StronglySorted ranks_before (sorted_rev v).
Proof.
  apply foldl_insert_sorted; [constructor| |intros a x Ha; by apply elem_of_nil in Ha].
  apply fst_sorted. rewrite imap_pair_indices. apply seq_sorted.
Qed.

Lemma insertion_argsort_perm (v : list F) :
  insertion_argsort v ≡ₚ seq 0 (length v).
Proof.
  unfold insertion_argsort. by rewrite fmap_reverse, reverse_Permutation, sorted_rev_indices.
Qed.

Lemma insertion_argsort_sorted (v : list F) :
  StronglySorted
    (fun i j => forall x y, v !! i = Some x -> v !! j = Some y -> fle x y = true)
    (insertion_argsort v).
Proof.
  unfold insertion_argsort.
  apply (StronglySorted_fmap _
           (fun p q : nat * F => ranks_before q p /\ v !! p.1 = Some p.2 /\
                                  v !! q.1 = Some q.2)).
  - intros [i a] [j b] (Hr & Hi & Hj) x y Hx Hy. simpl in *.
    destruct Hr as [Hle _]. simpl in Hle. congruence.
  - eapply StronglySorted_impl_elem;
      [|apply StronglySorted_reverse, sorted_rev_sorted].
    intros [i a] [j b] Hi Hj Hr. rewrite elem_of_reverse in Hi, Hj.
    apply sorted_rev_elem in Hi, Hj. unfold flip in Hr. simpl. done.
Qed.

End ArgsortFacts.

Global Instance Q_argsort_order : ArgsortOrder Q.
Proof.
  split; [apply insertion_argsort_perm|apply insertion_argsort_sorted].
Qed.

(** ** [sort_boxes] *)

Section SortBoxesFacts.
Context {F : Type} `{Scalar F} `{!Argsort F}.
Implicit Types (boxes : matrix F) (probs : list F)
  (landmarks : list (Landmark F)) (mask_probs : option (ndarray F)).

Lemma col_Ok j boxes :
  (j < ncols boxes)%nat -> col j boxes = Ok (at_col j <$> rows boxes).
Proof. intros Hj. unfold col. by rewrite bool_decide_eq_true_2. Qed.

Lemma zip_with_fmap_same {A B C D} (f : B -> C -> D) (g : A -> B) (h : A -> C) l :
  zip_with f (g <$> l) (h <$> l) = (fun x => f (g x) (h x)) <$> l.
Proof. induction l as [|x l IH]; csimpl; [done|]. by rewrite IH. Qed.

Lemma box_area_rows boxes :
  (4 <= ncols boxes)%nat -> box_area boxes = Ok (area_of <$> rows boxes).
Proof.
  intros Hc. unfold box_area.
  rewrite !col_Ok by lia. simpl.
  by rewrite !zip_with_fmap_same.
Qed.

Lemma center_offset_Ok boxes a b c :
  (a < ncols boxes)%nat -> (b < ncols boxes)%nat ->
  exists o, center_offset boxes a b c = Ok o.
Proof.
  intros Ha Hb. unfold center_offset. rewrite !col_Ok by done.
  simpl. by eexists.
Qed.

(** Without a limit, or with enough room, the arrays are returned as they are. *)
Lemma sort_boxes_skip boxes probs landmarks mask_probs shape max_num :
  max_num <= 0 \/ Z.of_nat (nrows boxes) <= max_num ->
  sort_boxes boxes probs landmarks mask_probs shape max_num
  = Ok (boxes, probs, landmarks, mask_probs).
Proof.
  intros Hn. unfold sort_boxes.
  destruct (bool_decide (max_num > 0)) eqn:E1; [|done].
  destruct (bool_decide (Z.of_nat (nrows boxes) > max_num)) eqn:E2; [|done].
  apply bool_decide_eq_true in E1, E2. lia.
Qed.

(** With a limit below the number of boxes, the arrays are indexed by [selection]. *)
Lemma sort_boxes_truncate boxes probs landmarks mask_probs shape max_num :
  (4 <= ncols boxes)%nat ->
  0 < max_num < Z.of_nat (nrows boxes) ->
  sort_boxes boxes probs landmarks mask_probs shape max_num
  = (let bindex := selection boxes max_num in
     boxes' ← gather_rows boxes bindex;
     probs' ← gather probs bindex;
     mask_probs' ← match mask_probs with
                   | Some a => Some <$> gather_rows_nd a bindex
                   | None => mret None
                   end;
     landmarks' ← gather landmarks bindex;
     mret (boxes', probs', landmarks', mask_probs')).
Proof.
  intros Hc Hn. unfold sort_boxes.
  rewrite !bool_decide_eq_true_2 by lia. simpl andb. cbv iota.
  rewrite box_area_rows by done.
  destruct (center_offset_Ok boxes 0 2 (shape.2 `div` 2)) as [ox Hox]; [lia..|].
  destruct (center_offset_Ok boxes 1 3 (shape.1 `div` 2)) as [oy Hoy]; [lia..|].
  simpl. rewrite Hox. simpl. rewrite Hoy. done.
Qed.
End SortBoxesFacts.

Section SelectionFacts.
Context {F : Type} `{Scalar F} `{!Argsort F} `{!ArgsortOrder F}.
Implicit Types (boxes : matrix F) (probs : list F)
  (landmarks : list (Landmark F)) (mask_probs : option (ndarray F)).

Lemma argsort_length (v : list F) : length (argsort v) = length v.
Proof. by rewrite argsort_perm, length_seq. Qed.

Lemma argsort_NoDup (v : list F) : NoDup (argsort v).
Proof. rewrite argsort_perm. apply NoDup_seq. Qed.

Lemma argsort_elem (v : list F) i : i ∈ argsort v <-> (i < length v)%nat.
Proof. rewrite argsort_perm, elem_of_seq. lia. Qed.

(** Keys descend along [np.argsort(v)[::-1]]. *)
Lemma reverse_argsort_sorted (v : list F) :
  StronglySorted
    (fun i j => forall x y, v !! i = Some x -> v !! j = Some y -> fle y x = true)
    (reverse (argsort v)).
Proof.
  eapply StronglySorted_impl_elem;
    [|apply StronglySorted_reverse, argsort_sorted].
  intros i j _ _ Hr x y Hx Hy. by apply (Hr y x).
Qed.

Lemma selection_length boxes max_num :
  0 <= max_num <= Z.of_nat (nrows boxes) ->
  length (selection boxes max_num) = Z.to_nat max_num.
Proof.
  intros Hn. unfold selection.
  rewrite length_take, length_reverse, argsort_length, length_fmap.
  unfold nrows in Hn. lia.
Qed.

Lemma selection_NoDup boxes max_num : NoDup (selection boxes max_num).
Proof.
  unfold selection.
  eapply sublist_NoDup; [|apply sublist_take].
  rewrite reverse_Permutation. apply argsort_NoDup.
Qed.

Lemma selection_lt boxes max_num :
  Forall (fun i => (i < nrows boxes)%nat) (selection boxes max_num).
Proof.
  apply Forall_forall. intros i Hi. unfold selection in Hi.
  apply elem_of_take in Hi as (k & Hi & _).
  apply list_elem_of_lookup_2 in Hi. rewrite elem_of_reverse, argsort_elem in Hi.
  by rewrite length_fmap in Hi.
Qed.

(** A kept box is at least as large as a dropped one. *)
Lemma selection_largest boxes max_num i j ri rj :
  i ∈ selection boxes max_num -> j ∉ selection boxes max_num ->
  rows boxes !! i = Some ri -> rows boxes !! j = Some rj ->
  fle (area_of rj) (area_of ri) = true.
Proof.
  unfold selection. intros Hi Hj Hri Hrj.
  pose proof (reverse_argsort_sorted (area_of <$> rows boxes)) as Hs.
  rewrite <- (take_drop (Z.to_nat max_num)
                (reverse (argsort (area_of <$> rows boxes)))) in Hs.
  assert (j ∈ reverse (argsort (area_of <$> rows boxes))) as Hjr.
  { rewrite elem_of_reverse, argsort_elem, length_fmap.
    by eapply lookup_lt_Some. }
  rewrite <- (take_drop (Z.to_nat max_num)
                (reverse (argsort (area_of <$> rows boxes)))) in Hjr.
  apply elem_of_app in Hjr as [Hjt|Hjd]; [done|].
  apply (StronglySorted_app_1_elem_of _ _ _ _ _ Hs Hi Hjd);
    by rewrite list_lookup_fmap, ?Hri, ?Hrj.
Qed.

(** The kept boxes are listed by descending area. *)
Lemma selection_sorted boxes max_num (out : list (list F)) :
  Forall2 (fun i r => rows boxes !! i = Some r) (selection boxes max_num) out ->
  StronglySorted (fun r r' => fle (area_of r') (area_of r) = true) out.
Proof.
  unfold selection. intros Hout.
  pose proof (reverse_argsort_sorted (area_of <$> rows boxes)) as Hs.
  rewrite <- (take_drop (Z.to_nat max_num)
                (reverse (argsort (area_of <$> rows boxes)))) in Hs.
  apply StronglySorted_app_1_l in Hs.
  revert Hout Hs.
  generalize (take (Z.to_nat max_num) (reverse (argsort (area_of <$> rows boxes)))).
  intros l Hout. induction Hout as [|i r l out Hr Hout IH]; [constructor|].
  rewrite !StronglySorted_cons. intros [Hi Hs]. split; [|by apply IH].
  rewrite Forall_forall in Hi. apply Forall_forall. intros r' Hr'.
  apply list_elem_of_lookup in Hr' as [k Hk].
  destruct (Forall2_lookup_r _ _ _ _ _ Hout Hk) as (j & Hj & Hjr).
  apply (Hi j); [by eapply list_elem_of_lookup_2|..];
    by rewrite list_lookup_fmap, ?Hr, ?Hjr.
Qed.
End SelectionFacts.

(** The statements about a truncating call hold for every [argsort] that
    meets [ArgsortOrder], whatever order it gives to equal keys. *)

Section SortBoxesTheorems.
Context {F : Type} `{Scalar F} `{!Argsort F} `{!ArgsortOrder F}.
Implicit Types (boxes : matrix F) (probs : list F)
  (landmarks : list (Landmark F)) (mask_probs : option (ndarray F)).

(** Truncation succeeds on a well-formed batch whose [mask_probs] is
    absent or two-dimensional, and indexes every array by [selection]. *)
Lemma sort_boxes_selects boxes probs landmarks mask_probs shape max_num :
  batch_wf (boxes, probs, landmarks, mask_probs) ->
  (forall v, mask_probs <> Some (Vec v)) ->
  0 < max_num < Z.of_nat (nrows boxes) ->
  exists b',
    sort_boxes boxes probs landmarks mask_probs shape max_num = Ok b' /\
    selects (selection boxes max_num) (boxes, probs, landmarks, mask_probs) b'.
Proof.
  intros (Hc & Hp & Hl & Hm) Hmask Hn.
  rewrite sort_boxes_truncate by (done || lia). cbv zeta.
  pose proof (selection_lt boxes max_num) as Hlt.
  destruct (gather_total (rows boxes) (selection boxes max_num)) as [rs Hrs]; [done|].
  destruct (gather_total probs (selection boxes max_num)) as [ps Hps].
  { by rewrite Hp. }
  destruct (gather_total landmarks (selection boxes max_num)) as [ls Hls].
  { by rewrite Hl. }
  unfold gather_rows. rewrite Hrs, Hps. simpl.
  apply gather_Ok in Hrs, Hps. pose proof Hls as Hls'. apply gather_Ok in Hls'.
  destruct mask_probs as [[v|m]|]; simpl.
  - by destruct (Hmask v).
  - simpl in Hm. unfold gather_rows.
    destruct (gather_total (rows m) (selection boxes max_num)) as [ms Hms].
    { unfold nrows in Hm. by rewrite Hm. }
    rewrite Hms. simpl. rewrite Hls. simpl.
    apply gather_Ok in Hms. eexists. split; [done|]. by repeat split.
  - rewrite Hls. simpl. eexists. split; [done|]. by repeat split.
Qed.

(** C9: [sort_boxes] is a no-op whenever [max_num <= 0] or the number of
    boxes is at most [max_num]: it returns the four arrays unchanged. *)
Theorem sort_boxes_noop boxes probs landmarks mask_probs shape max_num :
  max_num <= 0 \/ Z.of_nat (nrows boxes) <= max_num ->
  sort_boxes boxes probs landmarks mask_probs shape max_num
  = Ok (boxes, probs, landmarks, mask_probs).
Proof. apply sort_boxes_skip. Qed.

(** C1 (amended): with [0 < max_num < N], and [mask_probs] absent or
    two-dimensional, [sort_boxes] returns the kept entries ordered by
    descending area: every returned box has an area at least that of
    every box returned after it. The kept entries are not put back in
    detection order; the order among entries of equal area is the one
    [np.argsort] leaves, reversed. *)
Theorem sort_boxes_orders_by_area boxes probs landmarks mask_probs shape max_num :
  batch_wf (boxes, probs, landmarks, mask_probs) ->
  (forall v, mask_probs <> Some (Vec v)) ->
  0 < max_num < Z.of_nat (nrows boxes) ->
  exists bindex boxes' probs' landmarks' mask_probs',
    sort_boxes boxes probs landmarks mask_probs shape max_num
    = Ok (boxes', probs', landmarks', mask_probs') /\
    selects bindex (boxes, probs, landmarks, mask_probs)
            (boxes', probs', landmarks', mask_probs') /\
    StronglySorted (fun r r' => fle (area_of r') (area_of r) = true) (rows boxes').
Proof.
  intros Hwf Hmask Hn.
  destruct (sort_boxes_selects _ _ _ _ shape _ Hwf Hmask Hn)
    as ([[[boxes' probs'] landmarks'] mask_probs'] & Hrun & Hsel).
  exists (selection boxes max_num), boxes', probs', landmarks', mask_probs'.
  split; [done|]. split; [done|].
  eapply selection_sorted. by destruct Hsel as (_ & Hrows & _).
Qed.

(** C2 (amended): with [0 < max_num < N], and [mask_probs] absent or
    two-dimensional, [sort_boxes] returns exactly [max_num] entries,
    each drawn from a distinct entry of the batch, and every kept box has
    an area at least that of every dropped box. Which of several boxes of
    equal area are kept is left to [np.argsort]: detection order gives
    the earlier ones no precedence. *)
Theorem sort_boxes_keeps_largest boxes probs landmarks mask_probs shape max_num :
  batch_wf (boxes, probs, landmarks, mask_probs) ->
  (forall v, mask_probs <> Some (Vec v)) ->
  0 < max_num < Z.of_nat (nrows boxes) ->
  exists bindex boxes' probs' landmarks' mask_probs',
    sort_boxes boxes probs landmarks mask_probs shape max_num
    = Ok (boxes', probs', landmarks', mask_probs') /\
    Z.of_nat (nrows boxes') = max_num /\
    length probs' = nrows boxes' /\
    length landmarks' = nrows boxes' /\
    NoDup bindex /\
    selects bindex (boxes, probs, landmarks, mask_probs)
            (boxes', probs', landmarks', mask_probs') /\
    forall i j ri rj,
      i ∈ bindex -> j ∉ bindex ->
      rows boxes !! i = Some ri -> rows boxes !! j = Some rj ->
      fle (area_of rj) (area_of ri) = true.
Proof.
  intros Hwf Hmask Hn.
  destruct (sort_boxes_selects _ _ _ _ shape _ Hwf Hmask Hn)
    as ([[[boxes' probs'] landmarks'] mask_probs'] & Hrun & Hsel).
  exists (selection boxes max_num), boxes', probs', landmarks', mask_probs'.
  pose proof Hsel as (_ & Hrows & Hprobs & Hlms & _).
  apply Forall2_length in Hrows, Hprobs, Hlms.
  split; [done|]. unfold nrows.
  split; [rewrite <- Hrows, selection_length by lia; lia|].
  split; [congruence|]. split; [congruence|].
  split; [apply selection_NoDup|]. split; [done|].
  intros i j ri rj Hi Hj Hri Hrj.
  exact (selection_largest boxes max_num i j ri rj Hi Hj Hri Hrj).
Qed.

(** C3 (the code fails the claim): on a well-formed batch whose
    [mask_probs] is the 1-D array [Detector.detect] produces, with
    [0 < max_num < N], [mask_probs[bindex, :]] raises [IndexError], so
    [sort_boxes] returns nothing. *)
Theorem sort_boxes_mask_vector_raises boxes probs landmarks v shape max_num :
  batch_wf (boxes, probs, landmarks, Some (Vec v)) ->
  0 < max_num < Z.of_nat (nrows boxes) ->
  sort_boxes boxes probs landmarks (Some (Vec v)) shape max_num = Raise IndexError.
Proof.
  intros (Hc & Hp & Hl & Hm) Hn.
  rewrite sort_boxes_truncate by (done || lia). cbv zeta.
  pose proof (selection_lt boxes max_num) as Hlt.
  destruct (gather_total (rows boxes) (selection boxes max_num)) as [rs Hrs]; [done|].
  destruct (gather_total probs (selection boxes max_num)) as [ps Hps].
  { by rewrite Hp. }
  unfold gather_rows. by rewrite Hrs, Hps.
Qed.
End SortBoxesTheorems.

(** ** [reproject_points] *)

Section ReprojectFacts.
Context {F : Type} `{Scalar F} {A : Type} `{!Elementwise (F:=F) A}.

Lemma reproject_points_same (dets : A) (scale : F) :
  feqb scale fone = true -> reproject_points dets scale = dets.
Proof. intros Hs. unfold reproject_points. by rewrite Hs. Qed.

Lemma reproject_points_div (dets : A) (scale : F) :
  feqb scale fone = false ->
  reproject_points dets scale = emap (fun x => fdiv x scale) dets.
Proof. intros Hs. unfold reproject_points. by rewrite Hs. Qed.

(** On references, the array returned holds what the function on values
    computes from the array passed. *)
Lemma reproject_points_ref_value (h h' : heap A) (dets r : ref) (a : A) (scale : F) :
  h !! dets = Some a ->
  reproject_points_ref h dets scale = Some (h', r) ->
  h' !! r = Some (reproject_points a scale).
Proof.
  unfold reproject_points_ref, reproject_points, alloc. intros Ha.
  destruct (feqb scale fone); simpl.
  - by intros [= <- <-].
  - rewrite Ha. simpl. intros [= <- <-].
    by rewrite lookup_app_r, Nat.sub_diag.
Qed.

(** C6: [reproject_points] is pure. With a scale equal to 1.0 it returns
    the very array it was given and allocates nothing; with any other
    scale it returns a new array holding every coordinate divided by the
    scale, and every array that existed before, the input included, is
    left as it was. *)
Theorem reproject_points_pure (h : heap A) (dets : ref) (a : A) (scale : F) :
  h !! dets = Some a ->
  (feqb scale fone = true ->
     reproject_points a scale = a /\
     reproject_points_ref h dets scale = Some (h, dets)) /\
  (feqb scale fone = false ->
     reproject_points a scale = emap (fun x => fdiv x scale) a /\
     exists h' r,
       reproject_points_ref h dets scale = Some (h', r) /\
       h !! r = None /\
       h' !! r = Some (emap (fun x => fdiv x scale) a) /\
       h' !! dets = Some a /\
       forall p b, h !! p = Some b -> h' !! p = Some b).
Proof.
  intros Ha. split; intros Hs.
  - split; [by apply reproject_points_same|].
    unfold reproject_points_ref. by rewrite Hs.
  - split; [by apply reproject_points_div|].
    unfold reproject_points_ref, alloc. rewrite Hs, Ha. simpl.
    exists (h ++ [emap (fun x => fdiv x scale) a]), (length h).
    split; [done|]. split; [by apply lookup_ge_None_2|].
    split; [by rewrite lookup_app_r, Nat.sub_diag|].
    split; [by apply lookup_app_l_Some|].
    intros p b Hp. by apply lookup_app_l_Some.
Qed.
End ReprojectFacts.

(** ** Computations with a trace *)

Section TraceFacts.
Context {A B : Type}.

Lemma M_bind_Ok (m : M A) (f : A -> M B) t b :
  m ≫= f = (t, Ok b) ->
  exists a t1 t2, m = (t1, Ok a) /\ f a = (t2, Ok b) /\ t = t1 ++ t2.
Proof.
  destruct m as [t1 [a|e]]; unfold mbind, M_bind; simpl; [|done].
  destruct (f a) as [t2 r] eqn:Hf. simpl. intros [= <- ->].
  by exists a, t1, t2.
Qed.

(** One step of a run: [m] returns [a], then [f a] runs. *)
Lemma M_bind_eval (m : M A) (f : A -> M B) t t1 a t2 r :
  m = (t1, Ok a) -> f a = (t2, r) -> t = t1 ++ t2 -> m ≫= f = (t, r).
Proof. intros -> Hf ->. unfold mbind, M_bind. simpl. by rewrite Hf. Qed.

Lemma M_bind_trace (m : M A) (f : A -> M B) :
  (m ≫= f).1 = m.1 ++ match m.2 with Ok a => (f a).1 | Raise _ => [] end.
Proof.
  destruct m as [t [a|e]]; unfold mbind, M_bind; simpl; [done|].
  by rewrite app_nil_r.
Qed.

Lemma M_fmap_Ok (g : A -> B) (m : M A) t b :
  g <$> m = (t, Ok b) -> exists a, m = (t, Ok a) /\ b = g a.
Proof.
  destruct m as [t1 [a|e]]; unfold fmap, M_fmap; simpl; [|done].
  intros [= <- <-]. by exists a.
Qed.

End TraceFacts.

Section TraceListFacts.
Context {A B : Type}.

Lemma mapM_M_nil (f : A -> M B) : mapM (M:=M) f [] = ([], Ok []).
Proof. done. Qed.

Lemma mapM_M_Ok (f : A -> M B) l t k :
  mapM (M:=M) f l = (t, Ok k) ->
  Forall2 (fun x y => exists t', f x = (t', Ok y)) l k.
Proof.
  revert t k. induction l as [|x l IH]; intros t k; simpl.
  - intros [= <- <-]. constructor.
  - intros Hm. apply M_bind_Ok in Hm as (y & t1 & t2 & Hx & Hm & ->).
    apply M_bind_Ok in Hm as (k' & t3 & t4 & Hl & [= <- <-] & ->).
    constructor; [by exists t1|]. by eapply IH.
Qed.
End TraceListFacts.

(** ** [Detector] *)

Section DetectorFacts.
Context {F : Type} `{Scalar F} {Image Crop : Type}.
Implicit Types (env : Env (F:=F) (Image:=Image) (Crop:=Crop))
  (self : Detector (F:=F) (Image:=Image)).

(** What one call of [detect] does once the detector has answered with at
    least the four box columns and the score column. *)
Lemma Detector_detect_run self data threshold bboxes landmarks :
  retina_detect (retina self) data threshold = Ok (bboxes, landmarks) ->
  (5 <= ncols bboxes)%nat ->
  Detector_detect self data threshold
  = ([EvDetect; EvGetAttr AttrMasks],
     Ok (col_slice 0 4 bboxes, at_col 4 <$> rows bboxes, landmarks,
         match retina_masks (retina self) with
         | Some true =>
             if bool_decide (5 < ncols bboxes)%nat
             then Some (Vec (at_col 5 <$> rows bboxes)) else None
         | _ => None
         end)).
Proof.
  intros Hd Hc. unfold Detector_detect, call. rewrite Hd.
  unfold mbind at 1, M_bind at 1. cbn [fst snd].
  rewrite (col_Ok 4) by lia.
  unfold try_except, getattr, call, lift.
  destruct (retina_masks (retina self)) as [[|]|]; simpl; try done.
  unfold col. destruct (bool_decide (5 < ncols bboxes)%nat); done.
Qed.

(** Construction asks for the model and prepares it, nothing else. *)
Lemma Detector_init_trace env device det_name max_size backend_name force_fp16 ev :
  ev ∈ (Detector_init env device det_name max_size backend_name force_fp16).1 ->
  ev = EvGetModel det_name \/ exists ctx, ev = EvPrepare ctx.
Proof.
  unfold Detector_init, call, lift.
  destruct (get_model env _ _ _ _) as [r|e]; simpl.
  - destruct (device2ctx device) as [ctx|e]; simpl.
    + destruct (model_prepare env r ctx); simpl;
        rewrite !elem_of_cons, ?elem_of_nil; intros [->|[->|[]]]; eauto.
    + rewrite !elem_of_cons, ?elem_of_nil. intros [->|[]]; eauto.
  - rewrite !elem_of_cons, ?elem_of_nil. intros [->|[]]; eauto.
Qed.

(** C4 (amended): the wrapper never reads the detector's [masks]
    attribute when it is built and keeps no flag; every [detect] call reads
    the attribute anew, under a handler that swallows any failure. A call
    returns mask probabilities exactly when, on that call, the attribute
    reads [True] and the detector output has a sixth column; otherwise
    they are absent and no error is raised. *)
Theorem detect_probes_masks_each_call env self data threshold bboxes landmarks :
  retina_detect (retina self) data threshold = Ok (bboxes, landmarks) ->
  (5 <= ncols bboxes)%nat ->
  (forall device det_name max_size backend_name force_fp16,
     EvGetAttr AttrMasks
       ∉ (Detector_init env device det_name max_size backend_name force_fp16).1) /\
  Detector_detect self data threshold
  = ([EvDetect; EvGetAttr AttrMasks],
     Ok (col_slice 0 4 bboxes, at_col 4 <$> rows bboxes, landmarks,
         match retina_masks (retina self) with
         | Some true =>
             if bool_decide (5 < ncols bboxes)%nat
             then Some (Vec (at_col 5 <$> rows bboxes)) else None
         | _ => None
         end)).
Proof.
  intros Hd Hc. split; [|by apply Detector_detect_run].
  intros device det_name max_size backend_name force_fp16 Hin.
  apply Detector_init_trace in Hin as [Hev|[ctx Hev]]; discriminate.
Qed.
End DetectorFacts.

(** ** [to_chunks] *)

Section ChunkFacts.
Context {A : Type}.

(** The chunks, put end to end, are the sequence. *)
Lemma chunks_of_join (fuel k : nat) (l : list A) :
  (0 < k)%nat -> (length l <= fuel)%nat -> mjoin (chunks_of fuel k l) = l.
Proof.
  intros Hk. revert l. induction fuel as [|fuel IH]; intros l Hl.
  - destruct l; [done|]. simpl in Hl. lia.
  - destruct l as [|x l]; [done|].
    change (chunks_of (S fuel) k (x :: l))
      with (take k (x :: l) :: chunks_of fuel k (drop k (x :: l))).
    change (mjoin (take k (x :: l) :: chunks_of fuel k (drop k (x :: l))))
      with (take k (x :: l) ++ mjoin (chunks_of fuel k (drop k (x :: l)))).
    rewrite IH; [apply take_drop|].
    rewrite length_drop. simpl in *. lia.
Qed.

Lemma to_chunks_join (l : list A) (chunk_size : Z) chunks :
  to_chunks l chunk_size = Ok chunks -> mjoin chunks = l.
Proof.
  unfold to_chunks. case_bool_decide; [done|]. intros [= <-].
  apply chunks_of_join; lia.
Qed.

Lemma to_chunks_nil (chunk_size : Z) :
  0 < chunk_size -> to_chunks (@nil A) chunk_size = Ok [].
Proof. intros Hk. unfold to_chunks. by rewrite bool_decide_eq_false_2 by lia. Qed.
End ChunkFacts.

(** ** [FaceAnalysis.get] *)

Section PipelineFacts.
Context {F : Type} `{Scalar F} `{!Argsort F} {Image Crop : Type}.
Implicit Types (env : Env (F:=F) (Image:=Image) (Crop:=Crop))
  (self : FaceAnalysis (F:=F) (Image:=Image) (Crop:=Crop))
  (ee ega rfd : bool).

(** The size [get] hands to [ImageData]: the detector's, when it can be read. *)
Lemma detector_max_size_run self max_size :
  detector_max_size self max_size
  = ([EvGetAttr AttrInputShape], Ok (effective_max_size self max_size)).
Proof.
  unfold detector_max_size, effective_max_size, try_except, getattr, call.
  by destruct (retina_input_shape (retina (det_model self))).
Qed.

Lemma process_faces_nil env self ee ega rfd :
  0 < max_rec_batch_size self ->
  process_faces env self [] ee ega rfd = ([], Ok []).
Proof.
  intros Hk. unfold process_faces. by rewrite to_chunks_nil.
Qed.

(** C5: when the detector reports no detection, [get] returns the empty
    list without raising, and its only dealings with the outside are the
    read of [input_shape], the image preparation, the detector call with
    its read of [masks], and the scheduling point: the embedding model
    and the gender/age model are never called. This is for a pipeline
    with a positive batch size, an image that can be prepared and a
    detector answer that has the box and score columns. *)
Theorem get_no_detections env self img ee ega rfd max_size threshold limit_faces
    frame bboxes landmarks :
  image_data env img (effective_max_size self max_size) = Ok frame ->
  retina_detect (retina (det_model self)) (transformed_image frame) threshold
  = Ok (bboxes, landmarks) ->
  (5 <= ncols bboxes)%nat ->
  rows bboxes = [] ->
  0 < max_rec_batch_size self ->
  get env self img ee ega rfd max_size threshold limit_faces
  = ([EvGetAttr AttrInputShape; EvImageData (effective_max_size self max_size);
      EvDetect; EvGetAttr AttrMasks; EvSleep], Ok []) /\
  (forall n,
     EvGetEmbedding n
       ∉ (get env self img ee ega rfd max_size threshold limit_faces).1) /\
  (forall n,
     EvGaGet n ∉ (get env self img ee ega rfd max_size threshold limit_faces).1).
Proof.
  intros Himg Hdet Hc Hrows Hk.
  assert (get env self img ee ega rfd max_size threshold limit_faces
          = ([EvGetAttr AttrInputShape;
              EvImageData (effective_max_size self max_size);
              EvDetect; EvGetAttr AttrMasks; EvSleep], Ok [])) as Hget.
  { unfold get.
    eapply M_bind_eval; [apply detector_max_size_run| |].
    { eapply M_bind_eval; [unfold call; by rewrite Himg| |].
      { eapply M_bind_eval; [by apply Detector_detect_run| |].
        { eapply M_bind_eval; [done| |].
          { eapply M_bind_eval.
            - instantiate (2 := []).
              instantiate (1 := (col_slice 0 4 bboxes, at_col 4 <$> rows bboxes,
                                 landmarks, _)).
              case_bool_decide; [|done].
              unfold lift. rewrite sort_boxes_skip; [done|].
              right. unfold nrows, col_slice. simpl. rewrite Hrows. simpl. lia.
            - simpl. unfold nrows, col_slice. simpl. rewrite Hrows. simpl.
              eapply M_bind_eval; [reflexivity| |].
              + by apply process_faces_nil.
              + done.
            - done. }
          done. }
        done. }
      done. }
    done. }
  rewrite Hget. simpl. split; [done|].
  split; intros n Hin;
    repeat (apply elem_of_cons in Hin as [Hin|Hin]; [discriminate|]);
    by apply elem_of_nil in Hin.
Qed.

(** What the two model calls of a chunk leave in [embeddings] and [ga]. *)
Lemma embeddings_from_model self (crops : list (option Crop)) ee t embeddings :
  (if ee then
     m ← lift (from_option Ok (Raise AttributeError) (rec_model self));
     out ← call (EvGetEmbedding (length crops)) (get_embedding m crops);
     per_face (length crops);;
     mret (Some <$> out)
   else mret (replicate (length crops) None) : M (list (option (list F))))
  = (t, Ok embeddings) ->
  if ee then exists m out, rec_model self = Some m /\
               get_embedding m crops = Ok out /\ embeddings = Some <$> out
  else embeddings = replicate (length crops) None.
Proof.
  destruct ee; [|by intros [= <- <-]].
  intros Hrun.
  apply M_bind_Ok in Hrun as (m & t1 & t2 & Hm & Hrun & _).
  apply M_bind_Ok in Hrun as (out & t3 & t4 & Hout & Hrun & _).
  apply M_bind_Ok in Hrun as ([] & t5 & t6 & _ & [= _ <-] & _).
  exists m, out. unfold lift in Hm. unfold call in Hout.
  destruct (rec_model self) as [m'|]; simplify_eq/=. done.
Qed.

Lemma ga_from_model self (crops : list (option Crop)) ega t ga :
  (if ega then
     m ← lift (from_option Ok (Raise AttributeError) (ga_model self));
     out ← call (EvGaGet (length crops)) (ga_get m crops);
     per_face (length crops);;
     mret ((fun p => (Some p.1, Some p.2)) <$> out)
   else mret (replicate (length crops) (None, None))
     : M (list (option F * option F)))
  = (t, Ok ga) ->
  if ega then exists m out, ga_model self = Some m /\
                ga_get m crops = Ok out /\
                ga = (fun p => (Some p.1, Some p.2)) <$> out
  else ga = replicate (length crops) (None, None).
Proof.
  destruct ega; [|by intros [= <- <-]].
  intros Hrun.
  apply M_bind_Ok in Hrun as (m & t1 & t2 & Hm & Hrun & _).
  apply M_bind_Ok in Hrun as (out & t3 & t4 & Hout & Hrun & _).
  apply M_bind_Ok in Hrun as ([] & t5 & t6 & _ & [= _ <-] & _).
  exists m, out. unfold lift in Hm. unfold call in Hout.
  destruct (ga_model self) as [m'|]; simplify_eq/=. done.
Qed.

Lemma assemble_attributes env self chunk crops embeddings ga ee ega rfd i f :
  (if ee then exists m out, rec_model self = Some m /\
                get_embedding m crops = Ok out /\ embeddings = Some <$> out
   else embeddings = replicate (length crops) None) ->
  (if ega then exists m out, ga_model self = Some m /\
                 ga_get m crops = Ok out /\
                 ga = (fun p => (Some p.1, Some p.2)) <$> out
   else ga = replicate (length crops) (None, None)) ->
  assemble env chunk embeddings ga ee ega rfd i = Ok f ->
  face_attributes_ok env self ee ega f.
Proof.
  intros Hemb Hga Hrun. unfold assemble in Hrun.
  apply result_bind_Ok in Hrun as (embedding & Hi & Hrun).
  apply result_bind_Ok in Hrun as ([en ne] & Hnorm & Hrun).
  apply result_bind_Ok in Hrun as (_ga & Hj & Hrun).
  apply result_bind_Ok in Hrun as ([g a] & Hint & Hrun).
  apply result_bind_Ok in Hrun as (face & _ & [= <-]).
  apply index_Ok in Hi, Hj. cbv [mret result_ret] in Hnorm, Hint.
  split.
  - destruct ee.
    + destruct Hemb as (m & out & Hm & Hout & ->).
      rewrite list_lookup_fmap in Hi.
      destruct (out !! i) as [e|] eqn:He; simplify_eq/=.
      exists m, crops, out, i, e. by destruct rfd.
    + subst embeddings. apply lookup_replicate in Hi as [-> _].
      simplify_eq/=. by destruct rfd.
  - destruct ega.
    + destruct Hga as (m & out & Hm & Hout & ->).
      rewrite list_lookup_fmap in Hj.
      destruct (out !! i) as [[g0 a0]|] eqn:Hg; simplify_eq/=.
      apply result_bind_Ok in Hint as (z & Hz & [= <- <-]).
      exists m, crops, out, i, g0, a0, z. by destruct rfd.
    + simplify_eq/=. by destruct rfd.
Qed.

Lemma process_chunk_attributes env self chunk ee ega rfd t out :
  process_chunk env self chunk ee ega rfd = (t, Ok out) ->
  Forall (face_attributes_ok env self ee ega) out.
Proof.
  unfold process_chunk. cbv zeta. intros Hrun.
  apply M_bind_Ok in Hrun as (embeddings & t1 & t2 & Hemb & Hrun & _).
  apply M_bind_Ok in Hrun as (ga & t3 & t4 & Hga & Hrun & _).
  apply embeddings_from_model in Hemb. apply ga_from_model in Hga.
  unfold lift in Hrun. injection Hrun as _ Hrun.
  apply mapM_result_Ok in Hrun.
  apply Forall_forall. intros f Hf. apply list_elem_of_lookup in Hf as [j Hj].
  destruct (Forall2_lookup_r _ _ _ _ _ Hrun Hj) as (i & _ & Hi).
  by eapply assemble_attributes.
Qed.

Lemma process_faces_attributes env self faces ee ega rfd t out :
  process_faces env self faces ee ega rfd = (t, Ok out) ->
  Forall (face_attributes_ok env self ee ega) out.
Proof.
  unfold process_faces. intros Hrun.
  apply M_bind_Ok in Hrun as (chunks & t1 & t2 & _ & Hrun & _).
  apply M_fmap_Ok in Hrun as (outs & Hrun & ->).
  apply mapM_M_Ok in Hrun. apply Forall_join.
  apply Forall_forall. intros o Ho. apply list_elem_of_lookup in Ho as [j Hj].
  destruct (Forall2_lookup_r _ _ _ _ _ Hrun Hj) as (chunk & _ & t' & Hchunk).
  by eapply process_chunk_attributes.
Qed.

(** Whatever [get] returns was returned by [process_faces]. *)
Lemma get_returns_processed env self img ee ega rfd max_size threshold limit_faces
    t out :
  get env self img ee ega rfd max_size threshold limit_faces = (t, Ok out) ->
  exists faces t', process_faces env self faces ee ega rfd = (t', Ok out).
Proof.
  unfold get. intros Hrun.
  apply M_bind_Ok in Hrun as (ms & t1 & t2 & _ & Hrun & _).
  apply M_bind_Ok in Hrun as (frame & t3 & t4 & _ & Hrun & _).
  apply M_bind_Ok in Hrun as (b & t5 & t6 & _ & Hrun & _).
  apply M_bind_Ok in Hrun as ([] & t7 & t8 & _ & Hrun & _).
  apply M_bind_Ok in Hrun as (b' & t9 & t10 & _ & Hrun & _).
  apply M_bind_Ok in Hrun as (faces & t11 & t12 & _ & Hrun & _).
  by exists faces, t12.
Qed.

Lemma face_attributes_present env self ee ega f :
  face_attributes_ok env self ee ega f ->
  (is_Some (embedding f) <-> ee = true) /\
  (is_Some (embedding_norm f) <-> ee = true) /\
  (is_Some (normed_embedding f) <-> ee = true) /\
  (is_Some (gender f) <-> ega = true) /\
  (is_Some (age f) <-> ega = true).
Proof.
  intros [Hemb Hga].
  assert ((is_Some (embedding f) <-> ee = true) /\
          (is_Some (embedding_norm f) <-> ee = true) /\
          (is_Some (normed_embedding f) <-> ee = true)) as (He & Hn & Hne).
  { destruct ee.
    - destruct Hemb as (m & crops & out & i & e & _ & _ & _ & -> & -> & ->).
      repeat split; first [done | by eexists].
    - destruct Hemb as (-> & -> & ->).
      repeat split; first [done | by intros [? ?]]. }
  assert ((is_Some (gender f) <-> ega = true) /\
          (is_Some (age f) <-> ega = true)) as (Hg & Ha).
  { destruct ega.
    - destruct Hga as (m & crops & out & i & g & a & z & _ & _ & _ & _ & -> & ->).
      repeat split; first [done | by eexists].
    - destruct Hga as (-> & ->).
      repeat split; first [done | by intros [? ?]]. }
  done.
Qed.

(** C7: in every record a run of [get] returns, [embedding],
    [embedding_norm] and [normed_embedding] are set exactly when
    [extract_embedding] is true, and [gender] and [age] exactly when
    [extract_ga] is true; the embedding is an output of the embedding
    model, [gender] is [int] of the gender the attribute model returned
    and [age] is the age it returned, as it is. *)
Theorem get_record_fields env self img ee ega rfd max_size threshold limit_faces
    t faces :
  get env self img ee ega rfd max_size threshold limit_faces = (t, Ok faces) ->
  Forall (fun f =>
    (is_Some (embedding f) <-> ee = true) /\
    (is_Some (embedding_norm f) <-> ee = true) /\
    (is_Some (normed_embedding f) <-> ee = true) /\
    (is_Some (gender f) <-> ega = true) /\
    (is_Some (age f) <-> ega = true) /\
    face_attributes_ok env self ee ega f) faces.
Proof.
  intros Hrun.
  apply get_returns_processed in Hrun as (fs & t' & Hrun).
  apply process_faces_attributes in Hrun.
  eapply Forall_impl; [exact Hrun|]. intros f Hf.
  destruct (face_attributes_present _ _ _ _ _ Hf) as (? & ? & ? & ? & ?).
  done.
Qed.

(** C10: [get] first reads the detector's [input_shape] and hands
    [ImageData] the size it made of it. When the attribute can be read,
    that size is [input_shape[2:][::-1]] (width and height of a shape
    (n, c, h, w)) and the result of [get] does not depend on the caller's
    [max_size]; the caller's [max_size] is used only when the read fails. *)
Theorem get_max_size_from_detector env self img ee ega rfd max_size threshold
    limit_faces :
  (exists rest,
     (get env self img ee ega rfd max_size threshold limit_faces).1
     = EvGetAttr AttrInputShape
         :: EvImageData (effective_max_size self max_size) :: rest) /\
  (forall input_shape,
     retina_input_shape (retina (det_model self)) = Some input_shape ->
     effective_max_size self max_size = Some (reverse (drop 2 input_shape)) /\
     forall max_size',
       get env self img ee ega rfd max_size' threshold limit_faces
       = get env self img ee ega rfd max_size threshold limit_faces) /\
  (forall n c h w,
     retina_input_shape (retina (det_model self)) = Some [n; c; h; w] ->
     effective_max_size self max_size = Some [w; h]) /\
  (retina_input_shape (retina (det_model self)) = None ->
   effective_max_size self max_size = max_size).
Proof.
  split; [|split; [|split]].
  - unfold get. rewrite M_bind_trace, detector_max_size_run. cbn [fst snd].
    rewrite M_bind_trace. unfold call at 1. cbn [fst snd]. by eexists.
  - intros input_shape Hshape. unfold effective_max_size. rewrite Hshape.
    split; [done|]. intros max_size'. unfold get.
    rewrite !detector_max_size_run. unfold effective_max_size. by rewrite Hshape.
  - intros n c h w Hshape. unfold effective_max_size. by rewrite Hshape.
  - intros Hshape. unfold effective_max_size. by rewrite Hshape.
Qed.
End PipelineFacts.

(** ** The statements at the example inputs *)

(** Detection 2 is returned before detection 1: the kept boxes are not in
    detection order. *)
Lemma sort_boxes_reorders :
  sort_boxes ex_boxes ex_probs ex_landmarks None ex_shape 2
  = Ok (Matrix 4 [[0; 0; 3; 3]; [0; 0; 2; 2]]%Q, [0.7; 0.8]%Q,
        [[[3; 3]]; [[2; 2]]]%Q, None) /\
  ~ ([[0; 0; 3; 3]; [0; 0; 2; 2]]%Q `sublist_of` rows ex_boxes).
Proof.
  split; [reflexivity|]. unfold ex_boxes. simpl. intros Hsub.
  repeat (apply sublist_cons_r in Hsub as [Hsub|(l' & [= <-] & Hsub)]).
  all: try (apply sublist_nil_r in Hsub; discriminate).
Qed.

(** Of three boxes of equal area, the one kept is the last detection, not
    the first: numpy sorts three entries by insertion, which leaves equal
    keys in index order, and [sort_boxes] reverses that order. *)
Lemma sort_boxes_tie_keeps_later :
  area_of <$> rows ex_tied_boxes = [4; 4; 4]%Q /\
  sort_boxes ex_tied_boxes ex_probs ex_landmarks None ex_shape 1
  = Ok (Matrix 4 [[2; 2; 4; 4]]%Q, [0.7]%Q, [[[3; 3]]]%Q, None).
Proof. split; reflexivity. Qed.

(** The same detector returns mask probabilities for one image and none
    for another, reading [masks] on each call and never at construction. *)
Lemma detect_mask_presence_varies :
  (Detector_init ex_env "cuda" "retinaface_r50_v1" None "trt" false).1
  = [EvGetModel "retinaface_r50_v1"; EvPrepare 0] /\
  Detector_detect ex_detector 1%nat 0.3%Q
  = ([EvDetect; EvGetAttr AttrMasks],
     Ok (Matrix 4 [[100; 100; 200; 200]]%Q, [0.9]%Q,
         [[[120; 130]; [180; 130]; [150; 160]; [130; 180]; [170; 180]]]%Q,
         Some (Vec [0.2]%Q))) /\
  Detector_detect ex_detector 0%nat 0.3%Q
  = ([EvDetect; EvGetAttr AttrMasks], Ok (Matrix 4 [], [], [], None)).
Proof. repeat split; reflexivity. Qed.

(** Through [get]: two faces from the mask-capable detector and a limit of
    one face end in the [IndexError] of [sort_boxes], after the detector
    call and before any face is cropped. *)
Lemma get_limit_with_masks_raises :
  get ex_env ex_self 2%nat true true false None 0.3%Q 1
  = ([EvGetAttr AttrInputShape; EvImageData (Some [640; 480]); EvDetect;
      EvGetAttr AttrMasks; EvSleep], Raise IndexError).
Proof. reflexivity. Qed.

Lemma sort_boxes_noop_example :
  Z.of_nat (nrows ex_boxes) <= 3 /\
  sort_boxes ex_boxes ex_probs ex_landmarks (Some (Vec ex_masks)) ex_shape 3
  = Ok (ex_boxes, ex_probs, ex_landmarks, Some (Vec ex_masks)).
Proof.
  split; [unfold nrows; simpl; lia|].
  apply (sort_boxes_noop ex_boxes ex_probs ex_landmarks (Some (Vec ex_masks))
           ex_shape 3).
  right. unfold nrows. simpl. lia.
Defined.

Lemma sort_boxes_orders_by_area_example :
  exists bindex boxes' probs' landmarks' mask_probs',
    sort_boxes ex_boxes ex_probs ex_landmarks None ex_shape 2
    = Ok (boxes', probs', landmarks', mask_probs') /\
    selects bindex (ex_boxes, ex_probs, ex_landmarks, None)
            (boxes', probs', landmarks', mask_probs') /\
    StronglySorted (fun r r' => fle (area_of r') (area_of r) = true) (rows boxes').
Proof.
  apply (sort_boxes_orders_by_area ex_boxes ex_probs ex_landmarks None ex_shape 2).
  - repeat split; reflexivity.
  - intros v; discriminate.
  - unfold nrows; simpl; lia.
Defined.

Lemma sort_boxes_keeps_largest_example :
  exists bindex boxes' probs' landmarks' mask_probs',
    sort_boxes ex_tied_boxes ex_probs ex_landmarks None ex_shape 1
    = Ok (boxes', probs', landmarks', mask_probs') /\
    Z.of_nat (nrows boxes') = 1 /\
    length probs' = nrows boxes' /\
    length landmarks' = nrows boxes' /\
    NoDup bindex /\
    selects bindex (ex_tied_boxes, ex_probs, ex_landmarks, None)
            (boxes', probs', landmarks', mask_probs') /\
    forall i j ri rj,
      i ∈ bindex -> j ∉ bindex ->
      rows ex_tied_boxes !! i = Some ri -> rows ex_tied_boxes !! j = Some rj ->
      fle (area_of rj) (area_of ri) = true.
Proof.
  apply (sort_boxes_keeps_largest ex_tied_boxes ex_probs ex_landmarks None
           ex_shape 1).
  - repeat split; reflexivity.
  - intros v; discriminate.
  - unfold nrows; simpl; lia.
Defined.

Lemma sort_boxes_mask_vector_raises_example :
  sort_boxes ex_boxes ex_probs ex_landmarks (Some (Vec ex_masks)) ex_shape 2
  = Raise IndexError.
Proof.
  apply (sort_boxes_mask_vector_raises ex_boxes ex_probs ex_landmarks ex_masks
           ex_shape 2).
  - repeat split; reflexivity.
  - unfold nrows; simpl; lia.
Defined.

Lemma detect_probes_masks_each_call_example :
  (forall device det_name max_size backend_name force_fp16,
     EvGetAttr AttrMasks
       ∉ (Detector_init ex_env device det_name max_size backend_name force_fp16).1) /\
  Detector_detect ex_detector 0%nat 0.3%Q
  = ([EvDetect; EvGetAttr AttrMasks],
     Ok (col_slice 0 4 (Matrix 5 []), at_col 4 <$> rows (Matrix 5 []), [],
         match retina_masks (retina ex_detector) with
         | Some true =>
             if bool_decide (5 < ncols (Matrix (F:=Q) 5 []))%nat
             then Some (Vec (at_col 5 <$> rows (Matrix 5 []))) else None
         | _ => None
         end)).
Proof.
  apply (detect_probes_masks_each_call ex_env ex_detector 0%nat 0.3%Q
           (Matrix 5 []) []).
  - reflexivity.
  - simpl; lia.
Defined.

Lemma get_no_detections_example :
  get ex_env ex_self 0%nat true true false None 0.3%Q 3
  = ([EvGetAttr AttrInputShape; EvImageData (effective_max_size ex_self None);
      EvDetect; EvGetAttr AttrMasks; EvSleep], Ok []) /\
  (forall n,
     EvGetEmbedding n ∉ (get ex_env ex_self 0%nat true true false None 0.3%Q 3).1) /\
  (forall n,
     EvGaGet n ∉ (get ex_env ex_self 0%nat true true false None 0.3%Q 3).1).
Proof.
  apply (get_no_detections ex_env ex_self 0%nat true true false None 0.3%Q 3
           {| orig_image := 0%nat; transformed_image := 0%nat;
              transformed_shape := ex_shape; scale_factor := 1%Q |}
           (Matrix 5 []) []).
  - reflexivity.
  - reflexivity.
  - simpl; lia.
  - reflexivity.
  - simpl; lia.
Defined.

Lemma reproject_points_pure_example :
  (reproject_points [4; 6]%Q 1%Q = [4; 6]%Q /\
   reproject_points_ref [[4; 6]%Q] 0%nat 1%Q = Some ([[4; 6]%Q], 0%nat)) /\
  (reproject_points [4; 6]%Q 2%Q = emap (fun x => fdiv x 2%Q) [4; 6]%Q /\
   exists h' r,
     reproject_points_ref [[4; 6]%Q] 0%nat 2%Q = Some (h', r) /\
     [[4; 6]%Q] !! r = None /\
     h' !! r = Some (emap (fun x => fdiv x 2%Q) [4; 6]%Q) /\
     h' !! 0%nat = Some [4; 6]%Q /\
     forall p b, [[4; 6]%Q] !! p = Some b -> h' !! p = Some b).
Proof.
  split.
  - apply (proj1 (reproject_points_pure [[4; 6]%Q] 0%nat [4; 6]%Q 1%Q eq_refl)).
    reflexivity.
  - apply (proj2 (reproject_points_pure [[4; 6]%Q] 0%nat [4; 6]%Q 2%Q eq_refl)).
    reflexivity.
Defined.

Lemma get_record_fields_example :
  exists t faces,
    get ex_env ex_self 1%nat true false true None 0.3%Q 0 = (t, Ok faces) /\
    length faces = 1%nat /\
    Forall (fun f =>
      (is_Some (embedding f) <-> true = true) /\
      (is_Some (embedding_norm f) <-> true = true) /\
      (is_Some (normed_embedding f) <-> true = true) /\
      (is_Some (gender f) <-> false = true) /\
      (is_Some (age f) <-> false = true) /\
      face_attributes_ok ex_env ex_self true false f) faces.
Proof.
  eexists _, _. split; [reflexivity|]. split; [reflexivity|].
  eapply (get_record_fields ex_env ex_self 1%nat true false true None 0.3%Q 0).
  reflexivity.
Defined.

(** * Further properties *)

(** ** [sort_boxes]: errors, frame shape, repeated calls *)

Section SortBoxesMore.
Context {F : Type} `{Scalar F} `{!Argsort F} `{!ArgsortOrder F}.
Implicit Types (boxes : matrix F) (probs : list F)
  (landmarks : list (Landmark F)) (mask_probs : option (ndarray F)).

Lemma col_exn j boxes e : col j boxes = Raise e -> e = IndexError.
Proof. unfold col. case_bool_decide; congruence. Qed.

Lemma col_Ok_inv j boxes v : col j boxes = Ok v -> (j < ncols boxes)%nat.
Proof. unfold col. by case_bool_decide. Qed.

Lemma result_bind_Raise {A B} (r : result A) (f : A -> result B) e :
  r ≫= f = Raise e -> r = Raise e \/ exists a, r = Ok a /\ f a = Raise e.
Proof.
  destruct r as [a|e']; intros Hf; [right; by exists a|left].
  simpl in Hf. by injection Hf as ->.
Qed.

Lemma result_fmap_Ok {A B} (g : A -> B) (r : result A) b :
  g <$> r = Ok b -> exists a, r = Ok a /\ b = g a.
Proof. destruct r as [a|e]; simpl; [|done]. intros [= <-]. by exists a. Qed.

Lemma result_fmap_Raise {A B} (g : A -> B) (r : result A) e :
  g <$> r = Raise e -> r = Raise e.
Proof. destruct r; simpl; [done|]. by intros [= ->]. Qed.

Lemma gather_exn {A} (a : list A) bindex e : gather a bindex = Raise e -> e = IndexError.
Proof.
  unfold gather. induction bindex as [|i bindex IH]; simpl; [done|].
  intros Hr. apply result_bind_Raise in Hr as [Hr|(y & _ & Hr)].
  - unfold index in Hr. destruct (a !! i); congruence.
  - apply result_bind_Raise in Hr as [Hr|(k & _ & Hr)]; [by apply IH|done].
Qed.

Lemma box_area_exn boxes e : box_area boxes = Raise e -> e = IndexError.
Proof.
  unfold box_area. intros Hr.
  repeat (apply result_bind_Raise in Hr as [Hr|(? & _ & Hr)];
          [by apply col_exn in Hr|]).
  done.
Qed.

Lemma box_area_cols boxes area : box_area boxes = Ok area -> (4 <= ncols boxes)%nat.
Proof.
  unfold box_area. intros Hr.
  apply result_bind_Ok in Hr as (x2 & _ & Hr).
  apply result_bind_Ok in Hr as (x0 & _ & Hr).
  apply result_bind_Ok in Hr as (x3 & H3 & _).
  apply col_Ok_inv in H3. lia.
Qed.

(** The truncating branch, whatever the batch: it starts with the areas. *)
Lemma sort_boxes_branch boxes probs landmarks mask_probs shape max_num :
  0 < max_num < Z.of_nat (nrows boxes) ->
  sort_boxes boxes probs landmarks mask_probs shape max_num
  = (area ← box_area boxes;
     let bindex := selection boxes max_num in
     boxes' ← gather_rows boxes bindex;
     probs' ← gather probs bindex;
     mask_probs' ← match mask_probs with
                   | Some a => Some <$> gather_rows_nd a bindex
                   | None => mret None
                   end;
     landmarks' ← gather landmarks bindex;
     mret (boxes', probs', landmarks', mask_probs')).
Proof.
  intros Hn. destruct (box_area boxes) as [area|e] eqn:Harea.
  - rewrite sort_boxes_truncate; [done| |done]. by eapply box_area_cols.
  - unfold sort_boxes. rewrite !bool_decide_eq_true_2 by lia. simpl andb. cbv iota.
    by rewrite Harea.
Qed.

Lemma sort_boxes_cases boxes max_num :
  max_num <= 0 \/ Z.of_nat (nrows boxes) <= max_num \/
  0 < max_num < Z.of_nat (nrows boxes).
Proof. lia. Qed.

(** X1: the frame shape has no influence on what [sort_boxes] returns or
    raises: the centre offsets computed from it do not enter the ranking. *)
Theorem sort_boxes_ignores_shape boxes probs landmarks mask_probs shape shape' max_num :
  sort_boxes boxes probs landmarks mask_probs shape max_num
  = sort_boxes boxes probs landmarks mask_probs shape' max_num.
Proof.
  destruct (sort_boxes_cases boxes max_num) as [Hn|[Hn|Hn]].
  - by rewrite !sort_boxes_skip by (by left).
  - by rewrite !sort_boxes_skip by (by right).
  - by rewrite !sort_boxes_branch.
Qed.

(** X2: [sort_boxes] raises nothing but [IndexError], and only in the
    truncating case [0 < max_num < N]. *)
Theorem sort_boxes_raises_index_error boxes probs landmarks mask_probs shape max_num e :
  sort_boxes boxes probs landmarks mask_probs shape max_num = Raise e ->
  e = IndexError /\ 0 < max_num < Z.of_nat (nrows boxes).
Proof.
  intros Hr.
  destruct (sort_boxes_cases boxes max_num) as [Hn|[Hn|Hn]].
  - rewrite sort_boxes_skip in Hr by (by left). done.
  - rewrite sort_boxes_skip in Hr by (by right). done.
  - split; [|done]. rewrite sort_boxes_branch in Hr by done.
    apply result_bind_Raise in Hr as [Hr|(area & _ & Hr)];
      [by apply box_area_exn in Hr|].
    cbv zeta in Hr.
    apply result_bind_Raise in Hr as [Hr|(boxes' & _ & Hr)].
    { unfold gather_rows in Hr. apply result_fmap_Raise in Hr.
      by apply gather_exn in Hr. }
    apply result_bind_Raise in Hr as [Hr|(probs' & _ & Hr)];
      [by apply gather_exn in Hr|].
    apply result_bind_Raise in Hr as [Hr|(mask_probs' & _ & Hr)].
    { destruct mask_probs as [[v|m]|]; simpl in Hr; [congruence| |done].
      apply result_fmap_Raise in Hr. unfold gather_rows in Hr.
      apply result_fmap_Raise, result_fmap_Raise in Hr. by apply gather_exn in Hr. }
    apply result_bind_Raise in Hr as [Hr|(landmarks' & _ & Hr)];
      [by apply gather_exn in Hr|done].
Qed.

(** When the truncating branch returns, every array was indexed by [selection]. *)
Lemma sort_boxes_Ok_selects boxes probs landmarks mask_probs shape max_num b' :
  0 < max_num < Z.of_nat (nrows boxes) ->
  sort_boxes boxes probs landmarks mask_probs shape max_num = Ok b' ->
  selects (selection boxes max_num) (boxes, probs, landmarks, mask_probs) b'.
Proof.
  intros Hn Hr. rewrite sort_boxes_branch in Hr by done.
  apply result_bind_Ok in Hr as (area & _ & Hr). cbv zeta in Hr.
  apply result_bind_Ok in Hr as (boxes' & Hb & Hr).
  apply result_bind_Ok in Hr as (probs' & Hp & Hr).
  apply result_bind_Ok in Hr as (mask_probs' & Hm & Hr).
  apply result_bind_Ok in Hr as (landmarks' & Hl & [= <-]).
  unfold gather_rows in Hb. apply result_fmap_Ok in Hb as (rs & Hb & ->).
  apply gather_Ok in Hb, Hp, Hl.
  repeat split; try done.
  destruct mask_probs as [[v|m]|]; simpl in Hm.
  - done.
  - apply result_fmap_Ok in Hm as (a & Hm & ->).
    apply result_fmap_Ok in Hm as (m' & Hm & ->).
    unfold gather_rows in Hm. apply result_fmap_Ok in Hm as (ms & Hm & ->).
    by apply gather_Ok in Hm.
  - by injection Hm as <-.
Qed.

Lemma selects_nrows bindex (b b' : @batch F) :
  selects bindex b b' ->
  nrows b'.1.1.1 = length bindex /\ length b'.1.1.2 = length bindex /\
  length b'.1.2 = length bindex /\
  from_option (fun a => len_nd a = length bindex) True b'.2.
Proof.
  destruct b as [[[boxes probs] landmarks] mask_probs].
  destruct b' as [[[boxes' probs'] landmarks'] mask_probs'].
  intros (_ & Hb & Hp & Hl & Hm). simpl.
  apply Forall2_length in Hb, Hp, Hl.
  repeat split; try done.
  destruct mask_probs as [[v|m]|], mask_probs' as [[v'|m']|]; try done.
  simpl. unfold nrows. by apply Forall2_length in Hm.
Qed.

(** X3: [sort_boxes] is idempotent: what it returns, it returns unchanged
    when called again with the same limit. *)
Theorem sort_boxes_idempotent boxes probs landmarks mask_probs shape max_num
    boxes' probs' landmarks' mask_probs' :
  sort_boxes boxes probs landmarks mask_probs shape max_num
  = Ok (boxes', probs', landmarks', mask_probs') ->
  sort_boxes boxes' probs' landmarks' mask_probs' shape max_num
  = Ok (boxes', probs', landmarks', mask_probs').
Proof.
  intros Hr. destruct (sort_boxes_cases boxes max_num) as [Hn|[Hn|Hn]].
  - apply sort_boxes_skip. by left.
  - rewrite sort_boxes_skip in Hr by (by right). injection Hr as <- <- <- <-.
    apply sort_boxes_skip. by right.
  - apply sort_boxes_Ok_selects in Hr; [|done].
    apply selects_nrows in Hr as (Hrows & _). simpl in Hrows.
    rewrite selection_length in Hrows by lia.
    apply sort_boxes_skip. right. lia.
Qed.

(** X4: [sort_boxes] keeps a batch well formed: boxes of four columns and
    as many scores, landmarks and mask probabilities as boxes. *)
Theorem sort_boxes_keeps_batch_wf boxes probs landmarks mask_probs shape max_num b' :
  batch_wf (boxes, probs, landmarks, mask_probs) ->
  sort_boxes boxes probs landmarks mask_probs shape max_num = Ok b' ->
  batch_wf b'.
Proof.
  intros Hwf Hr. destruct (sort_boxes_cases boxes max_num) as [Hn|[Hn|Hn]].
  - rewrite sort_boxes_skip in Hr by (by left). by injection Hr as <-.
  - rewrite sort_boxes_skip in Hr by (by right). by injection Hr as <-.
  - apply sort_boxes_Ok_selects in Hr; [|done].
    pose proof (selects_nrows _ _ _ Hr) as (Hrows & Hp & Hl & Hm).
    destruct b' as [[[boxes' probs'] landmarks'] mask_probs'].
    destruct Hr as (Hc & _). destruct Hwf as (Hc4 & _). simpl in *.
    repeat split; try congruence.
    destruct mask_probs' as [a|]; simpl in *; congruence.
Qed.

End SortBoxesMore.

(** ** [Detector]: what [detect] returns and when it fails *)

Section DetectorMore.
Context {F : Type} `{Scalar F} {Image Crop : Type}.
Implicit Types (env : Env (F:=F) (Image:=Image) (Crop:=Crop))
  (self : Detector (F:=F) (Image:=Image)).

Lemma Detector_detect_raise self data threshold e :
  retina_detect (retina self) data threshold = Raise e ->
  Detector_detect self data threshold = ([EvDetect], Raise e).
Proof. intros Hd. unfold Detector_detect, call. by rewrite Hd. Qed.

Lemma col_short j (m : matrix F) : (ncols m <= j)%nat -> col j m = Raise IndexError.
Proof. intros Hj. unfold col. by rewrite bool_decide_eq_false_2 by lia. Qed.

Lemma Detector_detect_short self data threshold bboxes landmarks :
  retina_detect (retina self) data threshold = Ok (bboxes, landmarks) ->
  (ncols bboxes < 5)%nat ->
  Detector_detect self data threshold = ([EvDetect], Raise IndexError).
Proof.
  intros Hd Hc. unfold Detector_detect, call. rewrite Hd.
  unfold mbind at 1, M_bind at 1. cbn [fst snd].
  by rewrite (col_short 4) by lia.
Qed.

(** What [detect] returns, read off the detector's answer. *)
Lemma Detector_detect_Ok self data threshold t boxes probs landmarks mask_probs :
  Detector_detect self data threshold = (t, Ok (boxes, probs, landmarks, mask_probs)) ->
  ncols boxes = 4%nat /\
  length probs = nrows boxes /\
  (exists bboxes, retina_detect (retina self) data threshold = Ok (bboxes, landmarks) /\
                  nrows boxes = nrows bboxes) /\
  (mask_probs = None \/
   exists v, mask_probs = Some (Vec v) /\ length v = nrows boxes).
Proof.
  intros Hr.
  destruct (retina_detect (retina self) data threshold) as [[bboxes lms]|e] eqn:Hd.
  2:{ by rewrite (Detector_detect_raise _ _ _ _ Hd) in Hr. }
  destruct (decide (ncols bboxes < 5)%nat) as [Hc|Hc].
  { by rewrite (Detector_detect_short _ _ _ _ _ Hd Hc) in Hr. }
  rewrite (Detector_detect_run _ _ _ _ _ Hd) in Hr by lia.
  injection Hr as _ <- <- <- <-.
  unfold nrows, col_slice. cbn [ncols rows]. rewrite !length_fmap.
  split; [rewrite Nat.min_l by lia; lia|]. split; [done|].
  split; [by exists bboxes|].
  destruct (retina_masks (retina self)) as [[|]|]; [|by left..].
  case_bool_decide; [right|by left].
  eexists. split; [done|]. by rewrite length_fmap.
Qed.

(** X5: whenever [detect] returns, the boxes have four columns, there is
    one score per box and the landmarks are the detector's; mask
    probabilities, when present, are a 1-D array with one entry per box. *)
Theorem Detector_detect_aligned self data threshold t boxes probs landmarks mask_probs :
  Detector_detect self data threshold = (t, Ok (boxes, probs, landmarks, mask_probs)) ->
  ncols boxes = 4%nat /\
  length probs = nrows boxes /\
  (exists bboxes, retina_detect (retina self) data threshold = Ok (bboxes, landmarks) /\
                  nrows boxes = nrows bboxes) /\
  (mask_probs = None \/
   exists v, mask_probs = Some (Vec v) /\ length v = nrows boxes).
Proof. apply Detector_detect_Ok. Qed.

(** X6: [detect] fails exactly when the detector fails, with the
    detector's exception, or answers with fewer than five columns, with
    [IndexError]; reading the mask capability never makes it fail. *)
Theorem Detector_detect_fails self data threshold e :
  (Detector_detect self data threshold).2 = Raise e <->
  retina_detect (retina self) data threshold = Raise e \/
  exists bboxes landmarks,
    retina_detect (retina self) data threshold = Ok (bboxes, landmarks) /\
    (ncols bboxes < 5)%nat /\ e = IndexError.
Proof.
  destruct (retina_detect (retina self) data threshold) as [[bboxes lms]|e'] eqn:Hd.
  - destruct (decide (ncols bboxes < 5)%nat) as [Hc|Hc].
    + rewrite (Detector_detect_short _ _ _ _ _ Hd Hc). simpl. split.
      * intros [= <-]. right. by exists bboxes, lms.
      * intros [?|(? & ? & _ & _ & ->)]; done.
    + rewrite (Detector_detect_run _ _ _ _ _ Hd) by lia. simpl. split; [done|].
      intros [?|(? & ? & [= <- <-] & ? & _)]; [done|lia].
  - rewrite (Detector_detect_raise _ _ _ _ Hd). simpl. split.
    + intros [= <-]. by left.
    + intros [[= <-]|(? & ? & ? & _)]; done.
Qed.

(** X7: a [Detector] for a device other than "cpu" and "cuda" fetches the
    model and then fails with [KeyError], before the model is prepared. *)
Theorem Detector_init_unknown_device env device det_name max_size backend_name
    force_fp16 r :
  device <> "cpu" -> device <> "cuda" ->
  get_model env det_name backend_name force_fp16 (default [640; 480] max_size) = Ok r ->
  Detector_init env device det_name max_size backend_name force_fp16
  = ([EvGetModel det_name], Raise KeyError).
Proof.
  intros Hcpu Hcuda Hget. unfold Detector_init, call, lift, device2ctx.
  cbv zeta. rewrite Hget. by rewrite !bool_decide_eq_false_2 by done.
Qed.

End DetectorMore.

(** ** [FaceAnalysis.__init__] *)

Section ConstructionFacts.
Context {F : Type} `{Scalar F} {Image Crop : Type}.
Implicit Types (env : Env (F:=F) (Image:=Image) (Crop:=Crop))
  (zoo : Zoo (F:=F) (Crop:=Crop)).

Lemma device2ctx_Ok device ctx :
  device2ctx device = Ok ctx ->
  (device = "cpu" /\ ctx = -1) \/ (device = "cuda" /\ ctx = 0).
Proof.
  unfold device2ctx. repeat case_bool_decide; intros [= <-]; auto.
Qed.

(** X8: for a device other than "cpu" and "cuda", [FaceAnalysis.__init__]
    fails with [KeyError] before it fetches any model. *)
Theorem FaceAnalysis_init_unknown_device env zoo det_name rec_name ga_name device
    max_size batch_size backend_name force_fp16 :
  device <> "cpu" -> device <> "cuda" ->
  FaceAnalysis_init env zoo det_name rec_name ga_name device max_size
                    batch_size backend_name force_fp16
  = ([], Raise KeyError).
Proof.
  intros Hcpu Hcuda. unfold FaceAnalysis_init, lift, device2ctx. cbv zeta.
  by rewrite !bool_decide_eq_false_2 by done.
Qed.

(** What a construction that returns has done, step by step. *)
Lemma FaceAnalysis_init_Ok env zoo det_name rec_name ga_name device max_size
    batch_size backend_name force_fp16 t fa :
  FaceAnalysis_init env zoo det_name rec_name ga_name device max_size
                    batch_size backend_name force_fp16 = (t, Ok fa) ->
  exists ctx t1 t2 t3,
    device2ctx device = Ok ctx /\
    Detector_init env device det_name (Some (default [640; 640] max_size))
                  backend_name force_fp16 = (t1, Ok (det_model fa)) /\
    max_rec_batch_size fa = rec_batch_size backend_name batch_size /\
    match rec_name with
    | Some name =>
        exists m m',
          get_rec_model zoo name backend_name force_fp16 (max_rec_batch_size fa) = Ok m /\
          rec_prepare zoo m ctx = Ok m' /\ rec_model fa = Some m' /\
          t2 = [EvGetModel name; EvPrepare ctx]
    | None => rec_model fa = None /\ t2 = []
    end /\
    match ga_name with
    | Some name =>
        exists m m',
          get_ga_model zoo name backend_name force_fp16 (max_rec_batch_size fa) = Ok m /\
          ga_prepare zoo m ctx = Ok m' /\ ga_model fa = Some m' /\
          t3 = [EvGetModel name; EvPrepare ctx]
    | None => ga_model fa = None /\ t3 = []
    end /\
    t = t1 ++ t2 ++ t3.
Proof.
  unfold FaceAnalysis_init. cbv zeta. intros Hr.
  apply M_bind_Ok in Hr as (ctx & t0 & ta & Hctx & Hr & ->).
  unfold lift in Hctx. injection Hctx as <- Hctx.
  apply M_bind_Ok in Hr as (d & t1 & tb & Hdet & Hr & ->).
  apply M_bind_Ok in Hr as (rm & t2 & tc & Hrec & Hr & ->).
  apply M_bind_Ok in Hr as (gm & t3 & td & Hga & [= <- <-] & ->).
  exists ctx, t1, t2, t3. simpl. rewrite app_nil_r.
  split; [done|]. split; [done|]. split; [done|].
  split; [|split; [|done]].
  - destruct rec_name as [name|].
    + apply M_bind_Ok in Hrec as (m & ta & tb & Hm & Hrec & ->).
      apply M_bind_Ok in Hrec as (m' & tc & td & Hm' & [= <- <-] & ->).
      unfold call in Hm, Hm'. injection Hm as <- Hm. injection Hm' as <- Hm'.
      by exists m, m'.
    + by injection Hrec as <- <-.
  - destruct ga_name as [name|].
    + apply M_bind_Ok in Hga as (m & ta & tb & Hm & Hga & ->).
      apply M_bind_Ok in Hga as (m' & tc & td & Hm' & [= <- <-] & ->).
      unfold call in Hm, Hm'. injection Hm as <- Hm. injection Hm' as <- Hm'.
      by exists m, m'.
    + by injection Hga as <- <-.
Qed.

(** X9: a pipeline built for a backend other than "trt" and "triton" has
    batch size 1 whatever was asked for; for those two backends it has the
    batch size asked for, unchecked; and the recognition and attribute
    models are fetched with the batch size the pipeline keeps. *)
Theorem FaceAnalysis_init_batch_size env zoo det_name rec_name ga_name device
    max_size batch_size backend_name force_fp16 t fa :
  FaceAnalysis_init env zoo det_name rec_name ga_name device max_size
                    batch_size backend_name force_fp16 = (t, Ok fa) ->
  (backend_name <> "trt" -> backend_name <> "triton" ->
   max_rec_batch_size fa = 1) /\
  (backend_name = "trt" \/ backend_name = "triton" ->
   max_rec_batch_size fa = batch_size) /\
  (forall name, rec_name = Some name ->
     exists m, get_rec_model zoo name backend_name force_fp16
                 (max_rec_batch_size fa) = Ok m) /\
  (forall name, ga_name = Some name ->
     exists m, get_ga_model zoo name backend_name force_fp16
                 (max_rec_batch_size fa) = Ok m).
Proof.
  intros Hr.
  apply FaceAnalysis_init_Ok in Hr
    as (ctx & t1 & t2 & t3 & _ & _ & Hsize & Hrec & Hga & _).
  rewrite Hsize. unfold rec_batch_size.
  split; [|split; [|split]].
  - intros Htrt Htriton. rewrite !bool_decide_eq_false_2 by done. simpl.
    by case_bool_decide.
  - intros [->| ->]; [done|]. by rewrite (bool_decide_eq_true_2 ("triton" = "triton")),
      orb_true_r by done.
  - intros name ->. destruct Hrec as (m & m' & Hm & _).
    rewrite Hsize in Hm. by exists m.
  - intros name ->. destruct Hga as (m & m' & Hm & _).
    rewrite Hsize in Hm. by exists m.
Qed.

(** X10: a construction that returns has fetched and prepared the
    detector, then the recognition model, then the attribute model, each
    for the context of the device (-1 for "cpu", 0 for "cuda"); a model
    whose name is [None] is not fetched and is [None] in the pipeline. *)
Theorem FaceAnalysis_init_models env zoo det_name rec_name ga_name device
    max_size batch_size backend_name force_fp16 t fa :
  FaceAnalysis_init env zoo det_name rec_name ga_name device max_size
                    batch_size backend_name force_fp16 = (t, Ok fa) ->
  exists ctx,
    ((device = "cpu" /\ ctx = -1) \/ (device = "cuda" /\ ctx = 0)) /\
    (rec_model fa = None <-> rec_name = None) /\
    (ga_model fa = None <-> ga_name = None) /\
    t = [EvGetModel det_name; EvPrepare ctx]
        ++ from_option (fun name => [EvGetModel name; EvPrepare ctx]) [] rec_name
        ++ from_option (fun name => [EvGetModel name; EvPrepare ctx]) [] ga_name.
Proof.
  intros Hr.
  apply FaceAnalysis_init_Ok in Hr
    as (ctx & t1 & t2 & t3 & Hctx & Hdet & _ & Hrec & Hga & ->).
  exists ctx. split; [by apply device2ctx_Ok|].
  assert (t1 = [EvGetModel det_name; EvPrepare ctx]) as ->.
  { unfold Detector_init in Hdet. cbv zeta in Hdet.
    apply M_bind_Ok in Hdet as (r & ta & tb & Hr & Hdet & ->).
    apply M_bind_Ok in Hdet as (ctx' & tc & td & Hctx' & Hdet & ->).
    apply M_bind_Ok in Hdet as (r' & te & tf & Hr' & [= <- _] & ->).
    unfold call in Hr, Hr'. unfold lift in Hctx'.
    injection Hr as <- _. injection Hr' as <- _. injection Hctx' as <- Hctx'.
    by assert (ctx' = ctx) as -> by congruence. }
  split; [|split].
  - destruct rec_name as [name|]; [|by destruct Hrec as [-> _]].
    destruct Hrec as (m & m' & _ & _ & -> & _). by split.
  - destruct ga_name as [name|]; [|by destruct Hga as [-> _]].
    destruct Hga as (m & m' & _ & _ & -> & _). by split.
  - f_equal. f_equal.
    + destruct rec_name; [by destruct Hrec as (? & ? & _ & _ & _ & ->)|by destruct Hrec].
    + destruct ga_name; [by destruct Hga as (? & ? & _ & _ & _ & ->)|by destruct Hga].
Qed.

End ConstructionFacts.

(** ** [process_faces]: records, model calls, missing models *)

Section TraceListMore.
Context {A B : Type}.

(** A [mapM] that returns ran every step, in order. *)
Lemma mapM_M_Ok_traces (f : A -> M B) l t k :
  mapM (M:=M) f l = (t, Ok k) ->
  exists rs : list (list event * B),
    Forall2 (fun x r => f x = (r.1, Ok r.2)) l rs /\ t = mjoin rs.*1 /\ k = rs.*2.
Proof.
  revert t k. induction l as [|x l IH]; intros t k; simpl.
  - intros [= <- <-]. by exists [].
  - intros Hm. apply M_bind_Ok in Hm as (y & t1 & t2 & Hx & Hm & ->).
    apply M_bind_Ok in Hm as (k' & t3 & t4 & Hl & [= <- <-] & ->).
    destruct (IH _ _ Hl) as (rs & Hrs & -> & ->).
    exists ((t1, y) :: rs). split; [by constructor|].
    split; [|done]. csimpl. by rewrite app_nil_r.
Qed.

(** Steps that neither call out nor raise. *)
Lemma mapM_M_pure (f : A -> M B) (g : A -> B) l :
  (forall x, x ∈ l -> f x = ([], Ok (g x))) ->
  mapM (M:=M) f l = ([], Ok (g <$> l)).
Proof.
  induction l as [|x l IH]; intros Hf; [done|]. simpl.
  eapply M_bind_eval; [apply Hf; by left| |done].
  eapply M_bind_eval; [apply IH; intros y Hy; apply Hf; by right| |done].
  done.
Qed.

Lemma M_bind_fail (m : M A) (f : A -> M B) t e :
  m = (t, Raise e) -> m ≫= f = (t, Raise e).
Proof. by intros ->. Qed.

Lemma M_fmap_fail (g : A -> B) (m : M A) t e :
  m = (t, Raise e) -> g <$> m = (t, Raise e).
Proof. by intros ->. Qed.

(** A [mapM] stops at the first step that raises. *)
Lemma mapM_M_first_fails (f : A -> M B) x l t e :
  f x = (t, Raise e) -> mapM (M:=M) f (x :: l) = (t, Raise e).
Proof.
  intros Hf. simpl. unfold mbind at 1, M_bind. by rewrite Hf.
Qed.
End TraceListMore.

Section ProcessFacesMore.
Context {F : Type} `{Scalar F} {Image Crop : Type}.
Implicit Types (env : Env (F:=F) (Image:=Image) (Crop:=Crop))
  (self : FaceAnalysis (F:=F) (Image:=Image) (Crop:=Crop))
  (ee ega rfd : bool).

Lemma assemble_keeps env chunk embeddings ga ee ega rfd i o :
  assemble env chunk embeddings ga ee ega rfd i = Ok o ->
  exists f, chunk !! i = Some f /\ keeps_detection rfd f o.
Proof.
  unfold assemble. intros Hrun.
  apply result_bind_Ok in Hrun as (embedding & _ & Hrun).
  apply result_bind_Ok in Hrun as ([en ne] & _ & Hrun).
  apply result_bind_Ok in Hrun as (_ga & _ & Hrun).
  apply result_bind_Ok in Hrun as ([g a] & _ & Hrun).
  apply result_bind_Ok in Hrun as (face & Hface & [= <-]).
  apply index_Ok in Hface. exists face. split; [done|].
  by destruct rfd.
Qed.

(** A chunk that is processed: its records, and the calls made for it. *)
Lemma process_chunk_Ok env self chunk ee ega rfd t out :
  process_chunk env self chunk ee ega rfd = (t, Ok out) ->
  Forall2 (keeps_detection rfd) chunk out /\ t = chunk_calls ee ega (length chunk).
Proof.
  unfold process_chunk. cbv zeta. rewrite length_fmap. intros Hrun.
  apply M_bind_Ok in Hrun as (embeddings & t1 & t2 & Hemb & Hrun & ->).
  apply M_bind_Ok in Hrun as (ga & t3 & t4 & Hga & Hrun & ->).
  unfold lift in Hrun. injection Hrun as <- Hrun.
  apply mapM_result_Ok in Hrun. split.
  - apply Forall2_same_length_lookup. split.
    { apply Forall2_length in Hrun. by rewrite length_seq in Hrun. }
    intros i f o Hf Ho.
    destruct (Forall2_lookup_r _ _ _ _ _ Hrun Ho) as (j & Hj & Hass).
    apply lookup_seq in Hj as [-> _]. simpl in Hass.
    apply assemble_keeps in Hass as (f' & Hf' & Hkeep). congruence.
  - rewrite app_nil_r. unfold chunk_calls. f_equal.
    + destruct ee; [|by injection Hemb as <- _].
      apply M_bind_Ok in Hemb as (m & ta & tb & Hm & Hemb & ->).
      apply M_bind_Ok in Hemb as (o & tc & td & Ho & Hemb & ->).
      apply M_bind_Ok in Hemb as ([] & te & tf & Hpf & [= <- _] & ->).
      unfold lift in Hm. unfold call in Ho. unfold per_face in Hpf.
      injection Hm as <- _. injection Ho as <- _.
      case_bool_decide; [done|]. by injection Hpf as <-.
    + destruct ega; [|by injection Hga as <- _].
      apply M_bind_Ok in Hga as (m & ta & tb & Hm & Hga & ->).
      apply M_bind_Ok in Hga as (o & tc & td & Ho & Hga & ->).
      apply M_bind_Ok in Hga as ([] & te & tf & Hpf & [= <- _] & ->).
      unfold lift in Hm. unfold call in Ho. unfold per_face in Hpf.
      injection Hm as <- _. injection Ho as <- _.
      case_bool_decide; [done|]. by injection Hpf as <-.
Qed.

(** A run of [process_faces] that returns, chunk by chunk. *)
Lemma process_faces_Ok env self faces ee ega rfd t out :
  process_faces env self faces ee ega rfd = (t, Ok out) ->
  exists chunks,
    to_chunks faces (max_rec_batch_size self) = Ok chunks /\
    Forall2 (keeps_detection rfd) faces out /\
    t = mjoin ((fun chunk => chunk_calls ee ega (length chunk)) <$> chunks).
Proof.
  unfold process_faces. intros Hrun.
  apply M_bind_Ok in Hrun as (chunks & t1 & t2 & Hchunks & Hrun & ->).
  unfold lift in Hchunks. injection Hchunks as <- Hchunks.
  apply M_fmap_Ok in Hrun as (outs & Hrun & ->).
  apply mapM_M_Ok_traces in Hrun as (rs & Hrs & -> & ->).
  exists chunks. split; [done|].
  rewrite <- (to_chunks_join _ _ _ Hchunks). clear Hchunks. simpl.
  induction Hrs as [|chunk [tc oc] chunks rs Hc _ IH]; [by split; [constructor|]|].
  destruct IH as [IHrec IHt]. apply process_chunk_Ok in Hc as [Hkeep Ht].
  simpl in *. subst tc. split.
  - change (Forall2 (keeps_detection rfd) (chunk ++ mjoin chunks) (oc ++ mjoin rs.*2)).
    by apply Forall2_app.
  - change (mjoin ((chunk_calls ee ega (length chunk), oc) :: rs).*1)
      with (chunk_calls ee ega (length chunk) ++ mjoin rs.*1).
    f_equal. exact IHt.
Qed.

(** X11: [process_faces] returns one record per face, in the order of the
    faces; each record keeps the box, landmark, score, scale, detection
    number and mask probability of its face, and its crop exactly when
    [return_face_data] is true. *)
Theorem process_faces_keeps_detections env self faces ee ega rfd t out :
  process_faces env self faces ee ega rfd = (t, Ok out) ->
  length out = length faces /\ Forall2 (keeps_detection rfd) faces out.
Proof.
  intros Hrun. apply process_faces_Ok in Hrun as (chunks & _ & Hkeep & _).
  split; [|done]. symmetry. by eapply Forall2_length.
Qed.

(** What [assemble] reads at position [i] of the two model answers. *)
Lemma assemble_reads env chunk embeddings ga ee ega rfd i o :
  assemble env chunk embeddings ga ee ega rfd i = Ok o ->
  embeddings !! i = Some (embedding o) /\
  exists g, ga !! i = Some g /\
    (ega = true ->
     exists z, py_int_opt g.1 = Ok z /\ gender o = Some z /\ age o = g.2).
Proof.
  unfold assemble. intros Hrun.
  apply result_bind_Ok in Hrun as (e & He & Hrun).
  apply result_bind_Ok in Hrun as ([en ne] & _ & Hrun).
  apply result_bind_Ok in Hrun as (_ga & Hg & Hrun).
  apply result_bind_Ok in Hrun as ([g a] & Hint & Hrun).
  apply result_bind_Ok in Hrun as (face & _ & [= <-]).
  apply index_Ok in He, Hg. split; [done|].
  exists _ga. split; [done|]. intros ->.
  apply result_bind_Ok in Hint as (z & Hz & [= <- <-]). by exists z.
Qed.

(** The entries [0 .. n-1] of a model answer, read one by one. *)
Lemma read_answers {A B} (P : A -> B -> Prop) (n : nat) (oc : list A) (answers : list B) :
  length oc = n ->
  (forall i o, oc !! i = Some o -> exists x, answers !! i = Some x /\ P o x) ->
  Forall2 P oc (take n answers).
Proof.
  intros Hlen Hread. apply Forall2_same_length_lookup. split.
  - rewrite length_take. apply Nat.le_antisymm; [|lia].
    destruct (decide (n = 0)%nat) as [->|Hn]; [lia|].
    destruct (lookup_lt_is_Some_2 oc (n - 1)) as [o Ho]; [lia|].
    destruct (Hread _ _ Ho) as (x & Hx & _). apply lookup_lt_Some in Hx. lia.
  - intros i o x Ho Hx. apply lookup_take_Some in Hx as [Hx _].
    destruct (Hread _ _ Ho) as (x' & Hx' & HP). congruence.
Qed.

(** A chunk that is processed: the models were handed its crops. *)
Lemma process_chunk_answers env self chunk ee ega rfd t oc :
  process_chunk env self chunk ee ega rfd = (t, Ok oc) ->
  chunk_answers self ee ega chunk oc.
Proof.
  unfold process_chunk. cbv zeta. intros Hrun.
  apply M_bind_Ok in Hrun as (embeddings & t1 & t2 & Hemb & Hrun & _).
  apply M_bind_Ok in Hrun as (ga & t3 & t4 & Hga & Hrun & _).
  apply embeddings_from_model in Hemb. apply ga_from_model in Hga.
  unfold lift in Hrun. injection Hrun as _ Hrun.
  apply mapM_result_Ok in Hrun. rewrite length_fmap in Hrun.
  assert (length oc = length chunk) as Hlen.
  { apply Forall2_length in Hrun. by rewrite length_seq in Hrun. }
  assert (forall i o, oc !! i = Some o ->
            assemble env chunk embeddings ga ee ega rfd i = Ok o) as Hread.
  { intros i o Ho. destruct (Forall2_lookup_r _ _ _ _ _ Hrun Ho) as (j & Hj & Hass).
    by apply lookup_seq in Hj as [-> _]. }
  split.
  - intros ->. destruct Hemb as (m & es & Hm & Hes & ->).
    exists m, es. split; [done|]. split; [done|].
    apply read_answers; [done|]. intros i o Ho.
    apply Hread, assemble_reads in Ho as (He & _).
    rewrite list_lookup_fmap in He.
    destruct (es !! i) as [e|]; simplify_eq/=. by exists e.
  - intros ->. destruct Hga as (m & gs & Hm & Hgs & ->).
    exists m, gs. split; [done|]. split; [done|].
    apply read_answers; [done|]. intros i o Ho.
    apply Hread, assemble_reads in Ho as (_ & g & Hg & Hint).
    destruct (Hint eq_refl) as (z & Hz & Hgender & Hage).
    rewrite list_lookup_fmap in Hg.
    destruct (gs !! i) as [p|]; simplify_eq/=. exists p. split; [done|]. by exists z.
Qed.

(** X12: a run of [process_faces] that returns has called the models chunk
    by chunk, in the order of the chunks: for each chunk the embedding
    model once when embeddings are wanted, then the attribute model once
    when attributes are wanted, and nothing else. Each call is made with
    the crops of the chunk's faces, in the order of the faces, and the
    records of the chunk carry the answer to that call entry for entry. *)
Theorem process_faces_calls_per_chunk env self faces ee ega rfd t out :
  process_faces env self faces ee ega rfd = (t, Ok out) ->
  exists chunks outs,
    to_chunks faces (max_rec_batch_size self) = Ok chunks /\
    t = mjoin ((fun chunk =>
                  (if ee then [EvGetEmbedding (length chunk)] else []) ++
                  (if ega then [EvGaGet (length chunk)] else [])) <$> chunks) /\
    out = mjoin outs /\
    Forall2 (chunk_answers self ee ega) chunks outs.
Proof.
  intros Hrun.
  pose proof (process_faces_Ok _ _ _ _ _ _ _ _ Hrun) as (chunks & Hchunks & _ & Ht).
  unfold process_faces in Hrun. rewrite Hchunks in Hrun.
  apply M_bind_Ok in Hrun as (chunks' & t1 & t2 & [= _ <-] & Hrun & _).
  apply M_fmap_Ok in Hrun as (outs & Hrun & ->).
  exists chunks, outs. split; [done|]. split; [done|]. split; [done|].
  apply mapM_M_Ok in Hrun.
  eapply Forall2_impl; [exact Hrun|]. intros chunk oc [t' Hc].
  by eapply process_chunk_answers.
Qed.

(** Every chunk holds between one and [chunk_size] entries. *)
Lemma chunks_of_sizes {A} (fuel k : nat) (l : list A) :
  (0 < k)%nat -> Forall (fun c => (0 < length c <= k)%nat) (chunks_of fuel k l).
Proof.
  intros Hk. revert l. induction fuel as [|fuel IH]; intros l; [constructor|].
  destruct l as [|x l]; [constructor|].
  change (chunks_of (S fuel) k (x :: l))
    with (take k (x :: l) :: chunks_of fuel k (drop k (x :: l))).
  constructor; [|apply IH]. rewrite length_take. simpl. lia.
Qed.

Lemma to_chunks_sizes {A} (l : list A) (chunk_size : Z) chunks :
  to_chunks l chunk_size = Ok chunks ->
  Forall (fun c => 0 < Z.of_nat (length c) <= chunk_size) chunks.
Proof.
  unfold to_chunks. case_bool_decide; [done|]. intros [= <-].
  eapply Forall_impl; [apply (chunks_of_sizes _ (Z.to_nat chunk_size)); lia|].
  simpl. lia.
Qed.

(** X13: in a run of [process_faces] that returns, no call hands a model
    more crops than [max_rec_batch_size], nor an empty list of crops. *)
Theorem process_faces_respects_batch_size env self faces ee ega rfd t out n :
  process_faces env self faces ee ega rfd = (t, Ok out) ->
  EvGetEmbedding n ∈ t \/ EvGaGet n ∈ t ->
  0 < Z.of_nat n <= max_rec_batch_size self.
Proof.
  intros Hrun Hin.
  apply process_faces_Ok in Hrun as (chunks & Hchunks & _ & ->).
  apply to_chunks_sizes in Hchunks. rewrite Forall_forall in Hchunks.
  assert (exists chunk, chunk ∈ chunks /\ n = length chunk) as (chunk & Hc & ->).
  { destruct Hin as [Hin|Hin];
      apply list_elem_of_join in Hin as (calls & Hin & Hcalls);
      apply list_elem_of_fmap in Hcalls as (chunk & -> & Hchunk);
      exists chunk; (split; [done|]);
      unfold chunk_calls in Hin; destruct ee, ega; simpl in Hin;
      repeat (apply elem_of_cons in Hin as [Hin|Hin]; [congruence|]);
      by apply elem_of_nil in Hin. }
  by apply Hchunks.
Qed.

Lemma process_chunk_no_extraction env self chunk rfd :
  process_chunk env self chunk false false rfd
  = ([], Ok (without_attributes rfd <$> chunk)).
Proof.
  unfold process_chunk. cbv zeta. rewrite length_fmap.
  eapply M_bind_eval; [done| |done].
  eapply M_bind_eval; [done| |done].
  unfold lift. f_equal. apply mapM_result_Ok.
  apply Forall2_same_length_lookup. split; [by rewrite length_seq, length_fmap|].
  intros i j o Hj Ho. apply lookup_seq in Hj as [-> Hi]. simpl in *.
  rewrite list_lookup_fmap in Ho.
  destruct (chunk !! i) as [f|] eqn:Hf; [|done]. injection Ho as <-.
  unfold assemble, index. rewrite !lookup_replicate_2 by done. simpl.
  by rewrite Hf.
Qed.

(** X14: with neither embeddings nor attributes wanted, [process_faces]
    calls no model and cannot fail (for a positive batch size): it returns
    every face with its attribute fields empty. *)
Theorem process_faces_no_extraction env self faces rfd :
  0 < max_rec_batch_size self ->
  process_faces env self faces false false rfd
  = ([], Ok (without_attributes rfd <$> faces)).
Proof.
  intros Hk. unfold process_faces.
  destruct (to_chunks faces (max_rec_batch_size self)) as [chunks|e] eqn:Hchunks.
  2:{ unfold to_chunks in Hchunks. by rewrite bool_decide_eq_false_2 in Hchunks by lia. }
  eapply M_bind_eval; [done| |done].
  rewrite (mapM_M_pure _ (fmap (without_attributes rfd))).
  2:{ intros chunk _. apply process_chunk_no_extraction. }
  unfold fmap at 1, M_fmap. simpl. f_equal. f_equal.
  rewrite <- (to_chunks_join _ _ _ Hchunks). clear Hchunks.
  induction chunks as [|c chunks IH]; [done|].
  change (mjoin (fmap (without_attributes rfd) <$> c :: chunks))
    with ((without_attributes rfd <$> c) ++ mjoin (fmap (without_attributes rfd) <$> chunks)).
  change (mjoin (c :: chunks)) with (c ++ mjoin chunks).
  by rewrite IH, fmap_app.
Qed.

(** X15: a pipeline without recognition model that is asked for
    embeddings of at least one face fails with [AttributeError], without
    any model call. *)
Theorem process_faces_missing_rec_model env self f faces ega rfd :
  0 < max_rec_batch_size self ->
  rec_model self = None ->
  process_faces env self (f :: faces) true ega rfd = ([], Raise AttributeError).
Proof.
  intros Hk Hrec. unfold process_faces, to_chunks.
  rewrite bool_decide_eq_false_2 by lia.
  change (chunks_of (length (f :: faces)) (Z.to_nat (max_rec_batch_size self)) (f :: faces))
    with (take (Z.to_nat (max_rec_batch_size self)) (f :: faces)
          :: chunks_of (length faces) (Z.to_nat (max_rec_batch_size self))
               (drop (Z.to_nat (max_rec_batch_size self)) (f :: faces))).
  eapply M_bind_eval; [done| |done].
  apply M_fmap_fail, mapM_M_first_fails.
  unfold process_chunk. cbv zeta. by rewrite Hrec.
Qed.

End ProcessFacesMore.

(** ** [get]: the records of a run *)

Section GetMore.
Context {F : Type} `{Scalar F} `{!Argsort F} `{!ArgsortOrder F} {Image Crop : Type}.
Implicit Types (env : Env (F:=F) (Image:=Image) (Crop:=Crop))
  (self : FaceAnalysis (F:=F) (Image:=Image) (Crop:=Crop))
  (ee ega rfd : bool).

Lemma make_face_Ok env frame (b : @batch F) i t f :
  make_face env frame b i = (t, Ok f) -> candidate_of env frame b i f.
Proof.
  destruct b as [[[boxes probs] landmarks] mask_probs]. unfold make_face, candidate_of.
  intros Hr.
  apply M_bind_Ok in Hr as (box & t1 & t2 & Hbox & Hr & _).
  apply M_bind_Ok in Hr as (lm & t3 & t4 & Hlm & Hr & _).
  apply M_bind_Ok in Hr as (p & t5 & t6 & Hp & Hr & _).
  apply M_bind_Ok in Hr as (mp & t7 & t8 & Hmp & Hr & _).
  apply M_bind_Ok in Hr as (crop & t9 & t10 & Hcrop & [= _ <-] & _).
  unfold lift in Hbox, Hlm, Hp. unfold call in Hcrop.
  injection Hbox as _ Hbox. injection Hlm as _ Hlm. injection Hp as _ Hp.
  injection Hcrop as _ Hcrop. apply index_Ok in Hbox, Hlm, Hp.
  exists box, lm, p, crop. simpl. repeat split; try done.
  destruct mask_probs as [a|].
  - apply M_fmap_Ok in Hmp as (x & Hx & ->). unfold lift in Hx.
    injection Hx as _ Hx. by exists x.
  - by injection Hmp as _ <-.
Qed.

(** A run of [get] that returns, stage by stage. *)
Lemma get_Ok env self img ee ega rfd max_size threshold limit_faces t out :
  get env self img ee ega rfd max_size threshold limit_faces = (t, Ok out) ->
  exists frame td b b' faces,
    image_data env img (effective_max_size self max_size) = Ok frame /\
    Detector_detect (det_model self) (transformed_image frame) threshold = (td, Ok b) /\
    (if bool_decide (limit_faces > 0)
     then sort_boxes b.1.1.1 b.1.1.2 b.1.2 b.2 (transformed_shape frame) limit_faces = Ok b'
     else b' = b) /\
    Forall2 (fun i f => candidate_of env frame b' i f) (seq 0 (nrows b'.1.1.1)) faces /\
    Forall2 (keeps_detection rfd) faces out.
Proof.
  unfold get. intros Hr.
  apply M_bind_Ok in Hr as (ms & t1 & t2 & Hms & Hr & _).
  rewrite detector_max_size_run in Hms. injection Hms as _ <-.
  apply M_bind_Ok in Hr as (frame & t3 & t4 & Hframe & Hr & _).
  unfold call in Hframe. injection Hframe as _ Hframe.
  apply M_bind_Ok in Hr as (b & td & t6 & Hdet & Hr & _).
  apply M_bind_Ok in Hr as ([] & t7 & t8 & _ & Hr & _).
  apply M_bind_Ok in Hr as (b' & t9 & t10 & Hsel & Hr & _).
  apply M_bind_Ok in Hr as (faces & t11 & t12 & Hfaces & Hr & _).
  exists frame, td, b, b', faces. split; [done|]. split; [done|].
  split; [|split].
  - case_bool_decide.
    + destruct b as [[[boxes probs] landmarks] mask_probs]. unfold lift in Hsel.
      by injection Hsel as _ Hsel.
    + by injection Hsel as _ <-.
  - apply mapM_M_Ok in Hfaces.
    eapply Forall2_impl; [exact Hfaces|]. intros i f [t' Hf]. by eapply make_face_Ok.
  - by apply process_faces_Ok in Hr as (chunks & _ & Hkeep & _).
Qed.

(** X16: the records [get] returns follow the selected batch entry for
    entry: record [i] has the box and the landmark of entry [i] divided by
    the scale factor, its score and mask probability, the scale factor,
    and [i] itself as detection number (the rank after [sort_boxes], not
    the detector's index); its crop is the one taken from the original
    image at the reprojected landmark, or nothing when crops are not
    returned. *)
Theorem get_records_follow_batch env self img ee ega rfd max_size threshold
    limit_faces t out :
  get env self img ee ega rfd max_size threshold limit_faces = (t, Ok out) ->
  exists frame td b b',
    image_data env img (effective_max_size self max_size) = Ok frame /\
    Detector_detect (det_model self) (transformed_image frame) threshold = (td, Ok b) /\
    (if bool_decide (limit_faces > 0)
     then sort_boxes b.1.1.1 b.1.1.2 b.1.2 b.2 (transformed_shape frame) limit_faces = Ok b'
     else b' = b) /\
    length out = nrows b'.1.1.1 /\
    forall i o, out !! i = Some o ->
      exists f, candidate_of env frame b' i f /\ keeps_detection rfd f o.
Proof.
  intros Hr. apply get_Ok in Hr as (frame & td & b & b' & faces & Himg & Hdet & Hsel
                                     & Hcand & Hkeep).
  exists frame, td, b, b'. split; [done|]. split; [done|]. split; [done|].
  split.
  - apply Forall2_length in Hcand, Hkeep. rewrite length_seq in Hcand. congruence.
  - intros i o Ho.
    destruct (Forall2_lookup_r _ _ _ _ _ Hkeep Ho) as (f & Hf & Hfo).
    destruct (Forall2_lookup_r _ _ _ _ _ Hcand Hf) as (j & Hj & Hjf).
    apply lookup_seq in Hj as [-> _]. by exists f.
Qed.

Lemma sort_boxes_nrows boxes probs landmarks mask_probs shape max_num (b' : @batch F) :
  max_num > 0 ->
  sort_boxes boxes probs landmarks mask_probs shape max_num = Ok b' ->
  nrows b'.1.1.1 = (nrows boxes `min` Z.to_nat max_num)%nat.
Proof.
  intros Hpos Hr. destruct (sort_boxes_cases boxes max_num) as [Hn|[Hn|Hn]]; [lia| |].
  - rewrite sort_boxes_skip in Hr by (by right). injection Hr as <-. simpl. lia.
  - apply sort_boxes_Ok_selects in Hr; [|done].
    apply selects_nrows in Hr as (Hrows & _).
    rewrite Hrows, selection_length by lia. lia.
Qed.

(** X17: a run of [get] that returns yields one record per detection when
    [limit_faces] is not positive, and otherwise as many records as there
    are detections, but at most [limit_faces]. *)
Theorem get_record_count env self img ee ega rfd max_size threshold limit_faces
    t out :
  get env self img ee ega rfd max_size threshold limit_faces = (t, Ok out) ->
  exists frame bboxes landmarks,
    image_data env img (effective_max_size self max_size) = Ok frame /\
    retina_detect (retina (det_model self)) (transformed_image frame) threshold
    = Ok (bboxes, landmarks) /\
    length out = if bool_decide (limit_faces > 0)
                 then (nrows bboxes `min` Z.to_nat limit_faces)%nat
                 else nrows bboxes.
Proof.
  intros Hr. apply get_Ok in Hr as (frame & td & b & b' & faces & Himg & Hdet & Hsel
                                     & Hcand & Hkeep).
  destruct b as [[[boxes probs] landmarks] mask_probs].
  apply Detector_detect_Ok in Hdet as (_ & _ & (bboxes & Hdet & Hrows) & _).
  exists frame, bboxes, landmarks. split; [done|]. split; [done|].
  apply Forall2_length in Hcand, Hkeep. rewrite length_seq in Hcand.
  rewrite <- Hkeep, <- Hcand, <- Hrows.
  case_bool_decide; [|by subst b'].
  by apply sort_boxes_nrows in Hsel.
Qed.

(** X18: when [detect] fails, [get] fails with the same exception right
    after the detector call: no face is cropped and no model is called. *)
Theorem get_detect_failure env self img ee ega rfd max_size threshold limit_faces
    frame td e :
  image_data env img (effective_max_size self max_size) = Ok frame ->
  Detector_detect (det_model self) (transformed_image frame) threshold = (td, Raise e) ->
  get env self img ee ega rfd max_size threshold limit_faces
  = ([EvGetAttr AttrInputShape; EvImageData (effective_max_size self max_size)] ++ td,
     Raise e).
Proof.
  intros Himg Hdet. unfold get.
  eapply M_bind_eval; [apply detector_max_size_run| |done].
  eapply M_bind_eval; [unfold call; by rewrite Himg| |done].
  by apply M_bind_fail.
Qed.

Lemma make_face_trace env frame (b : @batch F) i t f :
  make_face env frame b i = (t, Ok f) -> t = [EvNormCrop].
Proof.
  destruct b as [[[boxes probs] landmarks] mask_probs]. unfold make_face.
  intros Hr.
  apply M_bind_Ok in Hr as (box & t1 & t2 & Hbox & Hr & ->).
  apply M_bind_Ok in Hr as (lm & t3 & t4 & Hlm & Hr & ->).
  apply M_bind_Ok in Hr as (p & t5 & t6 & Hp & Hr & ->).
  apply M_bind_Ok in Hr as (mp & t7 & t8 & Hmp & Hr & ->).
  apply M_bind_Ok in Hr as (crop & t9 & t10 & Hcrop & [= <- _] & ->).
  unfold lift in Hbox, Hlm, Hp. unfold call in Hcrop.
  injection Hbox as <- _. injection Hlm as <- _. injection Hp as <- _.
  injection Hcrop as <- _.
  assert (t7 = []) as ->; [|done].
  destruct mask_probs as [a|].
  - apply M_fmap_Ok in Hmp as (x & Hx & _). unfold lift in Hx. by injection Hx as <- _.
  - by injection Hmp as <- _.
Qed.

Lemma Detector_detect_Ok_trace (d : Detector (F:=F) (Image:=Image)) data threshold td b :
  Detector_detect d data threshold = (td, Ok b) -> td = [EvDetect; EvGetAttr AttrMasks].
Proof.
  intros Hr.
  destruct (retina_detect (retina d) data threshold) as [[bboxes lms]|e] eqn:Hd.
  2:{ by rewrite (Detector_detect_raise _ _ _ _ Hd) in Hr. }
  destruct (decide (ncols bboxes < 5)%nat) as [Hc|Hc].
  { by rewrite (Detector_detect_short _ _ _ _ _ Hd Hc) in Hr. }
  rewrite (Detector_detect_run _ _ _ _ _ Hd) in Hr by lia. by injection Hr as <- _.
Qed.

(** X20: a run of [get] that returns has dealt with the outside in this
    order and no other: the read of [input_shape], the image preparation,
    the detector call and the read of [masks], the scheduling point, one
    crop per record, and only then the model calls of [process_faces],
    chunk by chunk. *)
Theorem get_trace env self img ee ega rfd max_size threshold limit_faces t out :
  get env self img ee ega rfd max_size threshold limit_faces = (t, Ok out) ->
  exists (faces : list (Face (F:=F) (Crop:=Crop))) chunks,
    length faces = length out /\
    to_chunks faces (max_rec_batch_size self) = Ok chunks /\
    t = [EvGetAttr AttrInputShape; EvImageData (effective_max_size self max_size);
         EvDetect; EvGetAttr AttrMasks; EvSleep]
        ++ replicate (length out) EvNormCrop
        ++ mjoin ((fun chunk => chunk_calls ee ega (length chunk)) <$> chunks).
Proof.
  unfold get. intros Hr.
  apply M_bind_Ok in Hr as (ms & t1 & t2 & Hms & Hr & ->).
  rewrite detector_max_size_run in Hms. injection Hms as <- <-.
  apply M_bind_Ok in Hr as (frame & t3 & t4 & Hframe & Hr & ->).
  unfold call in Hframe. injection Hframe as <- Hframe.
  apply M_bind_Ok in Hr as (b & td & t6 & Hdet & Hr & ->).
  apply Detector_detect_Ok_trace in Hdet as ->.
  apply M_bind_Ok in Hr as ([] & t7 & t8 & Hsleep & Hr & ->).
  unfold call in Hsleep. injection Hsleep as <-.
  apply M_bind_Ok in Hr as (b' & t9 & t10 & Hsel & Hr & ->).
  assert (t9 = []) as ->.
  { case_bool_decide; [|by injection Hsel as <- _].
    destruct b as [[[boxes probs] landmarks] mask_probs]. unfold lift in Hsel.
    by injection Hsel as <- _. }
  apply M_bind_Ok in Hr as (faces & t11 & t12 & Hfaces & Hr & ->).
  apply process_faces_Ok in Hr as (chunks & Hchunks & Hkeep & ->).
  apply Forall2_length in Hkeep.
  exists faces, chunks. split; [done|]. split; [done|].
  simpl. do 5 f_equal.
  apply mapM_M_Ok_traces in Hfaces as (rs & Hrs & -> & ->).
  rewrite <- Hkeep, length_fmap. clear Hkeep Hchunks.
  induction Hrs as [|i [tf f] idx rs Hf _ IH]; [done|].
  apply make_face_trace in Hf. simpl in Hf. subst tf.
  change (mjoin (([EvNormCrop], f) :: rs).*1) with (EvNormCrop :: mjoin rs.*1).
  simpl. by rewrite IH.
Qed.

End GetMore.

(** ** Construction and processing together *)

Section BuiltPipeline.
Context {F : Type} `{Scalar F} {Image Crop : Type}.
Implicit Types (env : Env (F:=F) (Image:=Image) (Crop:=Crop))
  (zoo : Zoo (F:=F) (Crop:=Crop)) (ee ega rfd : bool).

(** X19: a pipeline built for a backend other than "trt" and "triton"
    hands its models exactly one crop per call, whatever batch size was
    asked for at construction. *)
Theorem built_pipeline_single_crops env zoo det_name rec_name ga_name device
    max_size batch_size backend_name force_fp16 t0 fa faces ee ega rfd t out n :
  backend_name <> "trt" -> backend_name <> "triton" ->
  FaceAnalysis_init env zoo det_name rec_name ga_name device max_size
                    batch_size backend_name force_fp16 = (t0, Ok fa) ->
  process_faces env fa faces ee ega rfd = (t, Ok out) ->
  EvGetEmbedding n ∈ t \/ EvGaGet n ∈ t ->
  n = 1%nat.
Proof.
  intros Htrt Htriton Hinit Hrun Hin.
  apply FaceAnalysis_init_Ok in Hinit
    as (ctx & t1 & t2 & t3 & _ & _ & Hsize & _).
  assert (max_rec_batch_size fa = 1) as Hone.
  { rewrite Hsize. unfold rec_batch_size.
    rewrite !bool_decide_eq_false_2 by done. simpl. by case_bool_decide. }
  apply process_faces_Ok in Hrun as (chunks & Hchunks & _ & ->).
  apply to_chunks_sizes in Hchunks. rewrite Forall_forall in Hchunks.
  assert (exists chunk, chunk ∈ chunks /\ n = length chunk) as (chunk & Hc & ->).
  { destruct Hin as [Hin|Hin];
      apply list_elem_of_join in Hin as (calls & Hin & Hcalls);
      apply list_elem_of_fmap in Hcalls as (chunk & -> & Hchunk);
      exists chunk; (split; [done|]);
      unfold chunk_calls in Hin; destruct ee, ega; simpl in Hin;
      repeat (apply elem_of_cons in Hin as [Hin|Hin]; [congruence|]);
      by apply elem_of_nil in Hin. }
  specialize (Hchunks _ Hc). lia.
Qed.

End BuiltPipeline.

(** ** The further statements at the example inputs *)

Lemma sort_boxes_raises_index_error_example :
  sort_boxes ex_boxes ex_probs ex_landmarks (Some (Vec ex_masks)) ex_shape 2
  = Raise IndexError /\
  IndexError = IndexError /\ 0 < 2 < Z.of_nat (nrows ex_boxes).
Proof.
  split; [reflexivity|].
  apply (sort_boxes_raises_index_error ex_boxes ex_probs ex_landmarks
           (Some (Vec ex_masks)) ex_shape 2 IndexError).
  reflexivity.
Defined.

Lemma sort_boxes_idempotent_example :
  sort_boxes (Matrix 4 [[0; 0; 3; 3]; [0; 0; 2; 2]]%Q) [0.7; 0.8]%Q
             [[[3; 3]]; [[2; 2]]]%Q None ex_shape 2
  = Ok (Matrix 4 [[0; 0; 3; 3]; [0; 0; 2; 2]]%Q, [0.7; 0.8]%Q,
        [[[3; 3]]; [[2; 2]]]%Q, None).
Proof.
  apply (sort_boxes_idempotent ex_boxes ex_probs ex_landmarks None ex_shape 2).
  reflexivity.
Defined.

Lemma sort_boxes_keeps_batch_wf_example :
  batch_wf (Matrix 4 [[0; 0; 3; 3]; [0; 0; 2; 2]]%Q, [0.7; 0.8]%Q,
            [[[3; 3]]; [[2; 2]]]%Q, None).
Proof.
  apply (sort_boxes_keeps_batch_wf ex_boxes ex_probs ex_landmarks None ex_shape 2).
  - repeat split; reflexivity.
  - reflexivity.
Defined.

Lemma Detector_detect_aligned_example :
  ncols (Matrix 4 [[100; 100; 200; 200]]%Q) = 4%nat /\
  length [0.9%Q] = nrows (Matrix 4 [[100; 100; 200; 200]]%Q) /\
  (exists bboxes,
     retina_detect (retina ex_detector) 1%nat 0.3%Q
     = Ok (bboxes, [[[120; 130]; [180; 130]; [150; 160]; [130; 180]; [170; 180]]]%Q) /\
     nrows (Matrix 4 [[100; 100; 200; 200]]%Q) = nrows bboxes) /\
  (Some (Vec [0.2%Q]) = None \/
   exists v, Some (Vec [0.2%Q]) = Some (Vec v) /\
             length v = nrows (Matrix 4 [[100; 100; 200; 200]]%Q)).
Proof.
  eapply (Detector_detect_aligned ex_detector 1%nat 0.3%Q). reflexivity.
Defined.

Lemma Detector_init_unknown_device_example :
  Detector_init ex_env "tpu" "retinaface_r50_v1" None "trt" false
  = ([EvGetModel "retinaface_r50_v1"], Raise KeyError).
Proof.
  apply (Detector_init_unknown_device ex_env "tpu" "retinaface_r50_v1" None "trt"
           false ex_retina).
  - discriminate.
  - discriminate.
  - reflexivity.
Defined.

Lemma FaceAnalysis_init_unknown_device_example :
  FaceAnalysis_init ex_env ex_zoo "retinaface_r50_v1" (Some "arcface_r100_v1")
                    (Some "genderage_v1") "tpu" None 1 "trt" false
  = ([], Raise KeyError).
Proof.
  apply (FaceAnalysis_init_unknown_device ex_env ex_zoo); discriminate.
Defined.

Lemma FaceAnalysis_init_batch_size_example :
  exists t fa,
    FaceAnalysis_init ex_env ex_zoo "retinaface_r50_v1" (Some "arcface_r100_v1")
                      None "cuda" None 4 "mxnet" false = (t, Ok fa) /\
    ("mxnet" <> "trt" -> "mxnet" <> "triton" -> max_rec_batch_size fa = 1) /\
    ("mxnet" = "trt" \/ "mxnet" = "triton" -> max_rec_batch_size fa = 4) /\
    (forall name, Some "arcface_r100_v1" = Some name ->
       exists m, get_rec_model ex_zoo name "mxnet" false (max_rec_batch_size fa) = Ok m) /\
    (forall name, @None string = Some name ->
       exists m, get_ga_model ex_zoo name "mxnet" false (max_rec_batch_size fa) = Ok m).
Proof.
  eexists _, _. split; [reflexivity|].
  eapply (FaceAnalysis_init_batch_size ex_env ex_zoo "retinaface_r50_v1"
            (Some "arcface_r100_v1") None "cuda" None 4 "mxnet" false).
  reflexivity.
Defined.

Lemma FaceAnalysis_init_models_example :
  exists t fa,
    FaceAnalysis_init ex_env ex_zoo "retinaface_r50_v1" (Some "arcface_r100_v1")
                      None "cuda" None 4 "mxnet" false = (t, Ok fa) /\
    exists ctx,
      (("cuda" = "cpu" /\ ctx = -1) \/ ("cuda" = "cuda" /\ ctx = 0)) /\
      (rec_model fa = None <-> Some "arcface_r100_v1" = @None string) /\
      (ga_model fa = None <-> @None string = None) /\
      t = [EvGetModel "retinaface_r50_v1"; EvPrepare ctx]
          ++ from_option (fun name => [EvGetModel name; EvPrepare ctx]) []
               (Some "arcface_r100_v1")
          ++ from_option (fun name => [EvGetModel name; EvPrepare ctx]) [] None.
Proof.
  eexists _, _. split; [reflexivity|].
  eapply (FaceAnalysis_init_models ex_env ex_zoo "retinaface_r50_v1"
            (Some "arcface_r100_v1") None "cuda" None 4 "mxnet" false).
  reflexivity.
Defined.

Lemma process_faces_keeps_detections_example :
  exists t out,
    process_faces ex_env ex_self [ex_face; ex_face; ex_face] true true false
    = (t, Ok out) /\
    length out = length [ex_face; ex_face; ex_face] /\
    Forall2 (keeps_detection false) [ex_face; ex_face; ex_face] out.
Proof.
  eexists _, _. split; [reflexivity|].
  eapply (process_faces_keeps_detections ex_env ex_self [ex_face; ex_face; ex_face]
            true true false).
  reflexivity.
Defined.

Lemma process_faces_calls_per_chunk_example :
  exists t out,
    process_faces ex_env ex_self ex_candidates true true false = (t, Ok out) /\
    t = [EvGetEmbedding 2; EvGaGet 2; EvGetEmbedding 1; EvGaGet 1] /\
    exists chunks outs,
      to_chunks ex_candidates (max_rec_batch_size ex_self) = Ok chunks /\
      t = mjoin ((fun chunk =>
                    (if true then [EvGetEmbedding (length chunk)] else []) ++
                    (if true then [EvGaGet (length chunk)] else [])) <$> chunks) /\
      out = mjoin outs /\
      Forall2 (chunk_answers ex_self true true) chunks outs.
Proof.
  eexists _, _. split; [reflexivity|]. split; [reflexivity|].
  eapply (process_faces_calls_per_chunk ex_env ex_self ex_candidates true true false).
  reflexivity.
Defined.

Lemma process_faces_respects_batch_size_example :
  exists t out,
    process_faces ex_env ex_self [ex_face; ex_face; ex_face] true true false
    = (t, Ok out) /\
    EvGetEmbedding 2 ∈ t /\
    0 < Z.of_nat 2 <= max_rec_batch_size ex_self.
Proof.
  eexists _, _. split; [reflexivity|]. split; [constructor|].
  eapply (process_faces_respects_batch_size ex_env ex_self
            [ex_face; ex_face; ex_face] true true false _ _ 2).
  - reflexivity.
  - left. constructor.
Defined.

Lemma process_faces_no_extraction_example :
  process_faces ex_env ex_self [ex_face; ex_face; ex_face] false false true
  = ([], Ok (without_attributes true <$> [ex_face; ex_face; ex_face])).
Proof.
  apply (process_faces_no_extraction ex_env ex_self). simpl. lia.
Defined.

Lemma process_faces_missing_rec_model_example :
  process_faces ex_env ex_self_no_rec [ex_face] true true false
  = ([], Raise AttributeError).
Proof.
  apply (process_faces_missing_rec_model ex_env ex_self_no_rec ex_face []).
  - simpl. lia.
  - reflexivity.
Defined.

Lemma get_records_follow_batch_example :
  exists t out,
    get ex_env ex_self 2%nat true true true None 0.3%Q 0 = (t, Ok out) /\
    exists frame td b b',
      image_data ex_env 2%nat (effective_max_size ex_self None) = Ok frame /\
      Detector_detect (det_model ex_self) (transformed_image frame) 0.3%Q = (td, Ok b) /\
      (if bool_decide (0 > 0)
       then sort_boxes b.1.1.1 b.1.1.2 b.1.2 b.2 (transformed_shape frame) 0 = Ok b'
       else b' = b) /\
      length out = nrows b'.1.1.1 /\
      forall i o, out !! i = Some o ->
        exists f, candidate_of ex_env frame b' i f /\ keeps_detection true f o.
Proof.
  eexists _, _. split; [reflexivity|].
  eapply (get_records_follow_batch ex_env ex_self 2%nat true true true None 0.3%Q 0).
  reflexivity.
Defined.

Lemma get_record_count_example :
  exists t out,
    get ex_env ex_self 2%nat true true true None 0.3%Q 5 = (t, Ok out) /\
    exists frame bboxes landmarks,
      image_data ex_env 2%nat (effective_max_size ex_self None) = Ok frame /\
      retina_detect (retina (det_model ex_self)) (transformed_image frame) 0.3%Q
      = Ok (bboxes, landmarks) /\
      length out = if bool_decide (5 > 0)
                   then (nrows bboxes `min` Z.to_nat 5)%nat
                   else nrows bboxes.
Proof.
  eexists _, _. split; [reflexivity|].
  eapply (get_record_count ex_env ex_self 2%nat true true true None 0.3%Q 5).
  reflexivity.
Defined.

Lemma get_trace_example :
  exists t out,
    get ex_env ex_self 2%nat true true true None 0.3%Q 0 = (t, Ok out) /\
    exists (faces : list (Face (F:=Q) (Crop:=nat))) chunks,
      length faces = length out /\
      to_chunks faces (max_rec_batch_size ex_self) = Ok chunks /\
      t = [EvGetAttr AttrInputShape; EvImageData (effective_max_size ex_self None);
           EvDetect; EvGetAttr AttrMasks; EvSleep]
          ++ replicate (length out) EvNormCrop
          ++ mjoin ((fun chunk => chunk_calls true true (length chunk)) <$> chunks).
Proof.
  eexists _, _. split; [reflexivity|].
  eapply (get_trace ex_env ex_self 2%nat true true true None 0.3%Q 0).
  reflexivity.
Defined.

Lemma get_detect_failure_example :
  get ex_env ex_self_failing 1%nat true true true None 0.3%Q 0
  = ([EvGetAttr AttrInputShape; EvImageData (effective_max_size ex_self_failing None)]
     ++ [EvDetect], Raise BackendError).
Proof.
  apply (get_detect_failure ex_env ex_self_failing 1%nat true true true None 0.3%Q 0
           {| orig_image := 1%nat; transformed_image := 1%nat;
              transformed_shape := ex_shape; scale_factor := 1%Q |}).
  - reflexivity.
  - reflexivity.
Defined.

Lemma built_pipeline_single_crops_example :
  exists t0 fa t out,
    FaceAnalysis_init ex_env ex_zoo "retinaface_r50_v1" (Some "arcface_r100_v1")
                      None "cuda" None 4 "mxnet" false = (t0, Ok fa) /\
    process_faces ex_env fa [ex_face; ex_face] true false false = (t, Ok out) /\
    EvGetEmbedding 1 ∈ t /\
    1%nat = 1%nat.
Proof.
  eexists _, _, _, _. split; [reflexivity|]. split; [reflexivity|].
  split; [constructor|].
  eapply (built_pipeline_single_crops ex_env ex_zoo "retinaface_r50_v1"
            (Some "arcface_r100_v1") None "cuda" None 4 "mxnet" false _ _
            [ex_face; ex_face] true false false _ _ 1).
  - discriminate.
  - discriminate.
  - reflexivity.
  - reflexivity.
  - left. constructor.
Defined.
